(** * Patient registration backend: registration, listing and lookup

    A shallow embedding of [backend/app]: the pydantic models of
    [models/patient.py], the two store modules of [database/] and the
    three handlers of [routes/patient_routes.py], followed by the
    properties of the dual-write registration flow and of the read
    surface. *)

From stdpp Require Import gmap strings list fin_maps sorting.
From Stdlib Require Import ZArith Lia.

Local Open Scope string_scope.
Local Open Scope list_scope.
Local Open Scope Z_scope.

(** ** Python values *)

(** The values a [Dict[str, Any]] of this program holds. *)
Inductive Any : Type :=
| PyNone
| PyInt (z : Z)
| PyStr (s : string).

Global Instance Any_eq_dec : EqDecision Any.
Proof. solve_decision. Defined.

Abbreviation Dict := (gmap string Any).

(** [len(s)] of a [str]; one [ascii] stands for one character. *)
Definition len (s : string) : Z := Z.of_nat (String.length s).

(** The exceptions that travel through the handlers: [HTTPException] is
    the one the lookup raises itself, [Exception] stands for every other
    subclass of [Exception] (driver and session errors). *)
Inductive exn : Type :=
| Exception (msg : string)
| HTTPException (status_code : Z) (detail : string).

(** [f"{e}"] *)
Definition str_exn (e : exn) : string :=
  match e with
  | Exception msg => msg
  | HTTPException _ detail => detail
  end.

(** ** models/patient.py *)

Inductive GenderEnum : Type := MALE | FEMALE | OTHER.

Global Instance GenderEnum_eq_dec : EqDecision GenderEnum.
Proof. solve_decision. Defined.

Module Gender.
(** [GenderEnum.X.value] *)
Definition value (g : GenderEnum) : string :=
  match g with
  | MALE => "male"
  | FEMALE => "female"
  | OTHER => "other"
  end.

(** [GenderEnum(s)]: lookup by value, [None] where the enum raises. *)
Definition of_value (s : string) : option GenderEnum :=
  if decide (s = "male") then Some MALE
  else if decide (s = "female") then Some FEMALE
  else if decide (s = "other") then Some OTHER
  else None.
End Gender.

(** The keyword arguments of [Field] that constrain a value, and the
    enumeration a field is typed with. *)
Module Field.
Inductive Constraint : Type :=
| min_length (n : Z)
| max_length (n : Z)
| gt (n : Z)
| lt (n : Z)
| enum_member.
End Field.
Abbreviation Constraint := Field.Constraint.

Global Instance Constraint_eq_dec : EqDecision Constraint.
Proof. solve_decision. Defined.

(** A [str] field with [min_length] and [max_length]: the value, or
    the constraint it breaks. *)
Definition str_field (lo hi : Z) (v : string) : Constraint + string :=
  if len v <? lo then inl (Field.min_length lo)
  else if hi <? len v then inl (Field.max_length hi)
  else inr v.

(** An [int] field with [gt] and [lt]. *)
Definition int_field (lo hi : Z) (v : Z) : Constraint + Z :=
  if v <=? lo then inl (Field.gt lo)
  else if hi <=? v then inl (Field.lt hi)
  else inr v.

(** A field typed [GenderEnum]. *)
Definition enum_field (v : string) : Constraint + GenderEnum :=
  match Gender.of_value v with
  | Some g => inr g
  | None => inl Field.enum_member
  end.

(** The entry a field adds to the error report: its name and the
    constraint, or nothing. *)
Definition error_of {A : Type} (field : string) (r : Constraint + A)
  : list (string * Constraint) :=
  match r with
  | inl c => [(field, c)]
  | inr _ => []
  end.

(** The data of a request body: the four fields of [PatientBase], as
    they arrive. *)
Module Body.
Record t : Type := Build {
  name : string;
  age : Z;
  gender : string;
  contact : string
}.
End Body.

(** [PatientBase]: the four fields in the order of declaration. Each
    field is validated on its own; the report collects the entry of
    every field that fails. *)
Module PatientBase.
Definition validate (name : string) (age : Z) (gender contact : string)
  : list (string * Constraint) + (string * Z * GenderEnum * string) :=
  match str_field 2 100 name, int_field 0 150 age,
        enum_field gender, str_field 5 20 contact with
  | inr n, inr a, inr g, inr c => inr (n, a, g, c)
  | rn, ra, rg, rc =>
      inl (error_of "name" rn ++ error_of "age" ra
           ++ error_of "gender" rg ++ error_of "contact" rc)
  end.
End PatientBase.

(** [PatientCreate(PatientBase)]: a validated body. *)
Module PatientCreate.
Record t : Type := Build {
  name : string;
  age : Z;
  gender : GenderEnum;
  contact : string
}.

Definition validate (b : Body.t) : list (string * Constraint) + t :=
  match PatientBase.validate (Body.name b) (Body.age b)
          (Body.gender b) (Body.contact b) with
  | inr (n, a, g, c) => inr (Build n a g c)
  | inl errors => inl errors
  end.
End PatientCreate.

(** [Patient(PatientBase)] with [id: int], the [response_model] of the
    three routes: the returned dictionary is validated against the model
    and serialised with the model's fields. [None] where validation
    fails. *)
Module Patient.
Definition validate (d : Dict) : option Dict :=
  match d !! "id", d !! "name", d !! "age", d !! "gender", d !! "contact" with
  | Some (PyInt id), Some (PyStr name), Some (PyInt age),
    Some (PyStr gender), Some (PyStr contact) =>
      match PatientBase.validate name age gender contact with
      | inr (n, a, g, c) =>
          Some (list_to_map
                  [ ("id", PyInt id); ("name", PyStr n); ("age", PyInt a);
                    ("gender", PyStr (Gender.value g)); ("contact", PyStr c) ])
      | inl _ => None
      end
  | _, _, _, _, _ => None
  end.
End Patient.

(** [PatientInDB(Patient)]: the fields of [Patient] and two optional
    strings that default to [None]. Keys the model does not declare are
    ignored. *)
Module PatientInDB.
Record t : Type := Build {
  id : Z;
  name : string;
  age : Z;
  gender : GenderEnum;
  contact : string;
  created_at : option string;
  updated_at : option string
}.

(** An [Optional[str]] field with default [None]: an absent key and
    [None] give [None], a string gives itself; the outer [None] is a
    value that is not a string. *)
Definition optional_str (v : option Any) : option (option string) :=
  match v with
  | None => Some None
  | Some PyNone => Some None
  | Some (PyStr s) => Some (Some s)
  | Some (PyInt _) => None
  end.

Definition validate (d : Dict) : option t :=
  match d !! "id", d !! "name", d !! "age", d !! "gender", d !! "contact" with
  | Some (PyInt id), Some (PyStr name), Some (PyInt age),
    Some (PyStr gender), Some (PyStr contact) =>
      match PatientBase.validate name age gender contact,
            optional_str (d !! "created_at"),
            optional_str (d !! "updated_at") with
      | inr (n, a, g, c), Some created_at, Some updated_at =>
          Some (Build id n a g c created_at updated_at)
      | _, _, _ => None
      end
  | _, _, _, _, _ => None
  end.
End PatientInDB.

(** ** database/postgres_db.py *)

(** An instance of the mapped class [PatientTable]. [id] is [None] from
    the constructor call until the row is flushed. *)
Module PatientTable.
Record t : Type := Build {
  id : option Z;
  name : string;
  age : Z;
  gender : string;
  contact : string
}.

Global Instance eq_dec : EqDecision t.
Proof. solve_decision. Defined.
End PatientTable.

(** The relational store behind [engine]. [patients] are the rows of the
    table in the order of insertion; [patients_id_seq] is the next value
    of the serial primary key. Two things are not decided by this
    program and are parameters of the engine. What it answers to a
    negative OFFSET or LIMIT is [negative_window], the message of a
    database error or the rows. In which order it returns the rows of a
    query that names no order is [scan_rank]: rows come by ascending
    rank, rows of equal rank in the order of insertion. *)
Record Database : Type := {
  patients : list PatientTable.t;
  patients_id_seq : Z;
  negative_window :
    option Z → option Z → list PatientTable.t → string + list PatientTable.t;
  scan_rank : PatientTable.t → Z
}.

(** [db.query(PatientTable)] and the three query methods the handlers
    chain on it. *)
Record Query : Type := {
  whereclause : option Z;
  offset_clause : option Z;
  limit_clause : option Z
}.

Definition query : Query :=
  {| whereclause := None; offset_clause := None; limit_clause := None |}.

(** [.filter(PatientTable.id == patient_id)] *)
Definition filter_id (patient_id : Z) (q : Query) : Query :=
  {| whereclause := Some patient_id;
     offset_clause := offset_clause q;
     limit_clause := limit_clause q |}.

Definition offset (n : Z) (q : Query) : Query :=
  {| whereclause := whereclause q;
     offset_clause := Some n;
     limit_clause := limit_clause q |}.

Definition limit (n : Z) (q : Query) : Query :=
  {| whereclause := whereclause q;
     offset_clause := offset_clause q;
     limit_clause := Some n |}.

(** WHERE id = ... *)
Definition where_rows (w : option Z) (rows : list PatientTable.t)
  : list PatientTable.t :=
  match w with
  | None => rows
  | Some i => filter (λ p, PatientTable.id p = Some i) rows
  end.

Definition is_negative (o : option Z) : bool :=
  match o with
  | Some n => n <? 0
  | None => false
  end.

(** OFFSET and LIMIT are 64-bit integers: a value of 2^63 or more does
    not reach the query. *)
Definition is_too_big (o : option Z) : bool :=
  match o with
  | Some n => 2 ^ 63 <=? n
  | None => false
  end.

(** The place of a row among rows already in scan order. *)
Fixpoint scan_insert (rank : PatientTable.t → Z) (p : PatientTable.t)
  (l : list PatientTable.t) : list PatientTable.t :=
  match l with
  | [] => [p]
  | q :: l' =>
      if rank p <=? rank q then p :: q :: l' else q :: scan_insert rank p l'
  end.

(** The rows as the engine returns them when the query has no ORDER BY. *)
Definition scan_rows (d : Database) (rows : list PatientTable.t)
  : list PatientTable.t :=
  foldr (scan_insert (scan_rank d)) [] rows.

(** OFFSET ... LIMIT ... over the scanned rows. There is no ORDER BY. *)
Definition window_rows (d : Database) (off lim : option Z)
  (rows : list PatientTable.t) : exn + list PatientTable.t :=
  if is_negative off || is_negative lim then
    match negative_window d off lim rows with
    | inl msg => inl (Exception msg)
    | inr rows => inr rows
    end
  else if is_too_big off || is_too_big lim then
    inl (Exception "integer out of range")
  else
    let rows := scan_rows d rows in
    let rows := match off with
                | Some o => drop (Z.to_nat o) rows
                | None => rows
                end in
    inr (match lim with
         | Some l => take (Z.to_nat l) rows
         | None => rows
         end).

(** The SELECT a query compiles to, run on the store. *)
Definition select (d : Database) (q : Query) : exn + list PatientTable.t :=
  window_rows d (offset_clause q) (limit_clause q)
    (where_rows (whereclause q) (patients d)).

(** ** The process and one request *)

(** What persists between requests: the relational store, the module
    global [db] of [mongo_db.py] ([None] until [init_mongodb] has
    connected, then the documents of its [patients] collection), and
    what has been printed. *)
Record World : Type := {
  postgres : Database;
  mongo_db : option (list Dict);
  stdout : list string
}.

(** The calls on the session and on the document-store driver that can
    raise. [db.commit()] can raise at two points: at [flush], before the
    INSERT has taken a value from the sequence, and at [commit], after
    the INSERT has run. *)
Inductive SessionCall : Type := add | flush | commit | refresh.
Inductive DriverCall : Type := database_bool | collection_bool | insert_one.

Global Instance SessionCall_eq_dec : EqDecision SessionCall.
Proof. solve_decision. Defined.
Global Instance DriverCall_eq_dec : EqDecision DriverCall.
Proof. solve_decision. Defined.

(** What the surroundings decide during one request: whether a session
    call or a driver call raises, with which message, and what
    [datetime.datetime.now().isoformat()] reads. *)
Record Env : Type := {
  session_fault : option (SessionCall * string);
  driver_fault : option (DriverCall * string);
  now_isoformat : string
}.

(** The session [get_db] yields for one request, over the world: the
    [PatientTable] objects the handler holds (a reference is an index
    into [objects]) and the references added but not yet flushed. *)
Record Session : Type := {
  world : World;
  objects : list PatientTable.t;
  new : list nat
}.

(** Handler code: reads the environment, threads the session, and
    returns or raises. *)
Definition M (A : Type) : Type := Env → Session → (exn + A) * Session.

Global Instance M_ret : MRet M := λ A x _ s, (inr x, s).

Global Instance M_bind : MBind M := λ A B f m env s,
  match m env s with
  | (inr x, s') => f x env s'
  | (inl e, s') => (inl e, s')
  end.

Definition raise {A : Type} (e : exn) : M A := λ _ s, (inl e, s).

Definition ask : M Env := λ env s, (inr env, s).

Definition get : M Session := λ _ s, (inr s, s).

Definition put (s : Session) : M unit := λ _ _, (inr (), s).

(** [try: body except Exception as e: handler(e)] *)
Definition try_except {A : Type} (body : M A) (handler : exn → M A) : M A :=
  λ env s,
    match body env s with
    | (inr x, s') => (inr x, s')
    | (inl e, s') => handler e env s'
    end.

(** Raises where the environment plants a fault on this session call. *)
Definition session_call (c : SessionCall) : M unit :=
  env ← ask;
  match session_fault env with
  | Some (c', msg) => if decide (c' = c) then raise (Exception msg) else mret ()
  | None => mret ()
  end.

Definition driver_call (c : DriverCall) : M unit :=
  env ← ask;
  match driver_fault env with
  | Some (c', msg) => if decide (c' = c) then raise (Exception msg) else mret ()
  | None => mret ()
  end.

Definition set_postgres (d : Database) (w : World) : World :=
  {| postgres := d; mongo_db := mongo_db w; stdout := stdout w |}.

Definition set_mongo_db (m : option (list Dict)) (w : World) : World :=
  {| postgres := postgres w; mongo_db := m; stdout := stdout w |}.

Definition set_stdout (o : list string) (w : World) : World :=
  {| postgres := postgres w; mongo_db := mongo_db w; stdout := o |}.

(** [print(line)] *)
Definition print (line : string) : M unit :=
  s ← get;
  put {| world := set_stdout (stdout (world s) ++ [line]) (world s);
         objects := objects s; new := new s |}.

(** *** The session *)

(** [PatientTable(name=..., age=..., gender=..., contact=...)]: a new
    object, not yet in the table; the handler gets a reference to it. *)
Definition PatientTable_new (name : string) (age : Z) (gender contact : string)
  : M nat :=
  s ← get;
  put {| world := world s;
         objects := objects s ++ [PatientTable.Build None name age gender contact];
         new := new s |};;
  mret (length (objects s)).

(** The attributes of the object behind a reference. *)
Definition attrs (r : nat) : M PatientTable.t :=
  s ← get;
  match objects s !! r with
  | Some p => mret p
  | None => raise (Exception "stale reference")
  end.

(** [db.add(obj)] *)
Definition db_add (r : nat) : M unit :=
  session_call add;;
  s ← get;
  put {| world := world s; objects := objects s; new := new s ++ [r] |}.

(** The INSERT of one pending object: the row takes the next value of
    the sequence as its [id], and the object now carries it. *)
Definition flush_one (s : Session) (r : nat) : Session :=
  match objects s !! r with
  | Some p =>
      let d := postgres (world s) in
      let row := PatientTable.Build (Some (patients_id_seq d))
                   (PatientTable.name p) (PatientTable.age p)
                   (PatientTable.gender p) (PatientTable.contact p) in
      {| world := set_postgres
                    {| patients := patients d ++ [row];
                       patients_id_seq := patients_id_seq d + 1;
                       negative_window := negative_window d;
                       scan_rank := scan_rank d |}
                    (world s);
         objects := <[r := row]> (objects s);
         new := new s |}
  | None => s
  end.

(** The transaction is rolled back: the table is as it was when the
    session [before] was current; the values taken from the sequence are
    not given back. *)
Definition db_rollback (before : Session) : M unit :=
  s ← get;
  let d := postgres (world s) in
  put {| world := set_postgres
                    {| patients := patients (postgres (world before));
                       patients_id_seq := patients_id_seq d;
                       negative_window := negative_window d;
                       scan_rank := scan_rank d |}
                    (world s);
         objects := objects before;
         new := [] |}.

(** [db.commit()]: flushes the pending objects and commits. Where it
    raises no row has been written; where it raises after the INSERT has
    run, the sequence has moved on. *)
Definition db_commit : M unit :=
  session_call flush;;
  s ← get;
  let s' := foldl flush_one s (new s) in
  put {| world := world s'; objects := objects s'; new := [] |};;
  try_except (session_call commit) (λ e, db_rollback s;; raise e).

(** [db.refresh(obj)]: reloads the object from its row, found by
    primary key. *)
Definition db_refresh (r : nat) : M unit :=
  session_call refresh;;
  s ← get;
  match objects s !! r with
  | Some p =>
      match PatientTable.id p with
      | Some i =>
          match head (where_rows (Some i) (patients (postgres (world s)))) with
          | Some row =>
              put {| world := world s;
                     objects := <[r := row]> (objects s);
                     new := new s |}
          | None => raise (Exception "Could not refresh instance")
          end
      | None => raise (Exception "Instance is not persistent within this Session")
      end
  | None => raise (Exception "stale reference")
  end.

(** [q.all()] *)
Definition db_all (q : Query) : M (list PatientTable.t) :=
  s ← get;
  match select (postgres (world s)) q with
  | inr rows => mret rows
  | inl e => raise e
  end.

(** [q.first()]: the query with LIMIT 1, and its first row or [None]. *)
Definition db_first (q : Query) : M (option PatientTable.t) :=
  rows ← db_all (limit 1 q);
  mret (head rows).

(** ** database/mongo_db.py *)

(** A handle on the [patients] collection of the connected database. *)
Inductive Collection : Type := db_patients.

(** [bool(x)] of a driver object or [None]: [None] is false; for a
    driver object the driver decides, and may raise. *)
Definition truth {A : Type} (c : DriverCall) (x : option A) : M bool :=
  match x with
  | None => mret false
  | Some _ => driver_call c;; mret true
  end.

(** [return db.patients if db else None] *)
Definition get_patients_collection : M (option Collection) :=
  s ← get;
  b ← truth database_bool (mongo_db (world s));
  if b : bool then mret (Some db_patients) else mret None.

(** [await mongo_collection.insert_one(document)] *)
Definition collection_insert_one (document : Dict) : M unit :=
  driver_call insert_one;;
  s ← get;
  match mongo_db (world s) with
  | Some docs =>
      put {| world := set_mongo_db (Some (docs ++ [document])) (world s);
             objects := objects s; new := new s |}
  | None => raise (Exception "not connected")
  end.

(** [datetime.datetime.now().isoformat()] *)
Definition datetime_now_isoformat : M string :=
  env ← ask;
  mret (now_isoformat env).

(** *** Start and stop of the document store *)

(** The object the module global [client] holds once [init_mongodb] has
    built it, open or closed. *)
Inductive Client : Type := AsyncIOMotorClient (closed : bool).

(** The process with both globals of [mongo_db.py]: [client], and [db]
    as the world has it. *)
Record Process : Type := {
  client : option Client;
  running : World
}.

(** What building the client and pinging the server come to: the
    constructor raises; the ping raises [ConnectionFailure]; the ping
    raises something else; or the server answers, its [patients]
    collection holding the given documents. *)
Inductive Connect : Type :=
| client_raises (msg : string)
| ping_raises_ConnectionFailure
| ping_raises (msg : string)
| pong (documents : list Dict).

Definition init_mongodb (c : Connect) (p : Process) : (exn + unit) * Process :=
  (* client = AsyncIOMotorClient(MONGO_URL) *)
  let built := Some (AsyncIOMotorClient false) in
  let w := running p in
  match c with
  | client_raises msg => (inl (Exception msg), p)
  | ping_raises msg => (inl (Exception msg), {| client := built; running := w |})
  | ping_raises_ConnectionFailure =>
      (* except ConnectionFailure: print("MongoDB connection failed") *)
      (inr (), {| client := built;
                  running := set_stdout (stdout w ++ ["MongoDB connection failed"]) w |})
  | pong documents =>
      (* db = client[DB_NAME]; print("Connected to MongoDB") *)
      (inr (), {| client := built;
                  running := set_stdout (stdout w ++ ["Connected to MongoDB"])
                               (set_mongo_db (Some documents) w) |})
  end.

(** [return db] *)
Definition get_mongodb (p : Process) : option (list Dict) :=
  mongo_db (running p).

(** [if client: client.close(); print("MongoDB connection closed")] *)
Definition close_mongodb_connection (p : Process) : Process :=
  match client p with
  | Some _ =>
      {| client := Some (AsyncIOMotorClient true);
         running := set_stdout (stdout (running p) ++ ["MongoDB connection closed"])
                      (running p) |}
  | None => p
  end.

(** The process as the modules are loaded: [client = None], [db = None],
    nothing printed. *)
Definition loaded (d : Database) : Process :=
  {| client := None;
     running := {| postgres := d; mongo_db := None; stdout := [] |} |}.

(** ** routes/patient_routes.py *)

Definition patient_to_dict (patient : PatientTable.t) : Dict :=
  list_to_map
    [ ("id", from_option PyInt PyNone (PatientTable.id patient));
      ("name", PyStr (PatientTable.name patient));
      ("age", PyInt (PatientTable.age patient));
      ("gender", PyStr (PatientTable.gender patient));
      ("contact", PyStr (PatientTable.contact patient)) ].

Definition create_patient (patient : PatientCreate.t) : M Dict :=
  db_patient ← PatientTable_new
    (PatientCreate.name patient)
    (PatientCreate.age patient)
    (Gender.value (PatientCreate.gender patient))
    (PatientCreate.contact patient);
  db_add db_patient;;
  db_commit;;
  db_refresh db_patient;;
  try_except
    (mongo_collection ← get_patients_collection;
     b ← truth collection_bool mongo_collection;
     if b : bool then
       p ← attrs db_patient;
       let patient_data := patient_to_dict p in
       created_at ← datetime_now_isoformat;
       let patient_data := <["created_at" := PyStr created_at]> patient_data in
       collection_insert_one patient_data
     else
       print "MongoDB collection is None, skipping MongoDB insert")
    (λ e, print ("Error inserting into MongoDB: " +:+ str_exn e));;
  p ← attrs db_patient;
  mret (patient_to_dict p).

Definition read_patients (skip limit_ : Z) : M (list Dict) :=
  patients ← db_all (limit limit_ (offset skip query));
  mret (patient_to_dict <$> patients).

Definition read_patient (patient_id : Z) : M Dict :=
  patient ← db_first (filter_id patient_id query);
  match patient with
  | None => raise (HTTPException 404 "Patient not found")
  | Some patient => mret (patient_to_dict patient)
  end.

(** ** The routes as the framework serves them *)

(** One entry of a 422 report. *)
Record ErrorItem : Type := {
  loc : list string;
  constraint : Constraint
}.

Inductive Content : Type :=
| Json (d : Dict)
| JsonList (l : list Dict)
| Detail (msg : string)
| DetailErrors (errors : list ErrorItem)
| InternalServerError.

Record Response : Type := {
  status_code : Z;
  content : Content
}.

(** [Depends(get_db)]: a fresh session over the world for the handler,
    closed when the handler is done, whether it returned or raised. *)
Definition with_db {A : Type} (env : Env) (w : World) (handler : M A)
  : (exn + A) * World :=
  let '(r, s) := handler env {| world := w; objects := []; new := [] |} in
  (r, world s).

(** The response to what a handler did: its return value goes through
    the [response_model]; an [HTTPException] becomes its status and
    detail; anything else raised, and a return value the model rejects,
    is a server error. *)
Definition respond {A : Type} (status : Z) (response_model : A → option Content)
  (r : exn + A) : Response :=
  match r with
  | inr v =>
      match response_model v with
      | Some c => {| status_code := status; content := c |}
      | None => {| status_code := 500; content := InternalServerError |}
      end
  | inl (HTTPException code detail) =>
      {| status_code := code; content := Detail detail |}
  | inl (Exception _) =>
      {| status_code := 500; content := InternalServerError |}
  end.

(** The report of a body that fails [PatientCreate]. *)
Definition unprocessable (errors : list (string * Constraint)) : Response :=
  {| status_code := 422;
     content := DetailErrors
       ((λ '(field, c), {| loc := ["body"; field]; constraint := c |}) <$> errors) |}.

(** [POST /patients/], [status_code=201], [response_model=Patient] *)
Definition post_patients (env : Env) (body : Body.t) (w : World)
  : Response * World :=
  match PatientCreate.validate body with
  | inl errors => (unprocessable errors, w)
  | inr patient =>
      let '(r, w') := with_db env w (create_patient patient) in
      (respond 201 (λ d, Json <$> Patient.validate d) r, w')
  end.

(** [GET /patients/?skip=&limit=], [response_model=List[Patient]];
    an absent query parameter takes its default. *)
Definition get_patients (env : Env) (skip limit_ : option Z) (w : World)
  : Response * World :=
  let '(r, w') :=
    with_db env w (read_patients (default 0 skip) (default 100 limit_)) in
  (respond 200 (λ l, JsonList <$> mapM Patient.validate l) r, w').

(** [GET /patients/{patient_id}], [response_model=Patient] *)
Definition get_patient (env : Env) (patient_id : Z) (w : World)
  : Response * World :=
  let '(r, w') := with_db env w (read_patient patient_id) in
  (respond 200 (λ d, Json <$> Patient.validate d) r, w').

(** The three routes of the router. *)
Inductive Request : Type :=
| POST_patients (body : Body.t)
| GET_patients (skip limit_ : option Z)
| GET_patient (patient_id : Z).

Definition serve (env : Env) (rq : Request) (w : World) : Response * World :=
  match rq with
  | POST_patients body => post_patients env body w
  | GET_patients skip limit_ => get_patients env skip limit_ w
  | GET_patient patient_id => get_patient env patient_id w
  end.

(** * Vocabulary of the properties *)

(** ** Well-formed stores *)

(** The order of the rows by primary key. *)
Definition id_lt (p q : PatientTable.t) : Prop :=
  match PatientTable.id p, PatientTable.id q with
  | Some i, Some j => i < j
  | _, _ => False
  end.

(** A row that is a patient record: it has its [id], and its fields
    satisfy [PatientBase]. *)
Definition row_valid (p : PatientTable.t) : Prop :=
  is_Some (PatientTable.id p) ∧
  ∃ g, PatientBase.validate (PatientTable.name p) (PatientTable.age p)
         (PatientTable.gender p) (PatientTable.contact p)
       = inr (PatientTable.name p, PatientTable.age p, g, PatientTable.contact p).

(** The states of the relational store this program produces: every row
    is a patient record, the keys ascend along the table, and the
    sequence is ahead of every key. *)
Record Database_ok (d : Database) : Prop := {
  rows_valid : Forall row_valid (patients d);
  ids_ascending : StronglySorted id_lt (patients d);
  ids_below_seq :
    Forall (λ p, ∀ i, PatientTable.id p = Some i → i < patients_id_seq d)
      (patients d)
}.

(** The worlds the process reaches: it starts on an empty table and
    serves requests. *)
Inductive reachable : World → Prop :=
| reachable_start w : patients (postgres w) = [] → reachable w
| reachable_serve env rq w : reachable w → reachable (serve env rq w).2.

(** The row a registration inserts, and the store after it. *)
Definition new_row (d : Database) (patient : PatientCreate.t) : PatientTable.t :=
  PatientTable.Build (Some (patients_id_seq d))
    (PatientCreate.name patient) (PatientCreate.age patient)
    (Gender.value (PatientCreate.gender patient))
    (PatientCreate.contact patient).

Definition inserted (d : Database) (patient : PatientCreate.t) : Database :=
  {| patients := patients d ++ [new_row d patient];
     patients_id_seq := patients_id_seq d + 1;
     negative_window := negative_window d;
     scan_rank := scan_rank d |}.

(** The store after an INSERT that was rolled back: the rows as they
    were, the sequence one ahead. *)
Definition rolled_back (d : Database) : Database :=
  {| patients := patients d;
     patients_id_seq := patients_id_seq d + 1;
     negative_window := negative_window d;
     scan_rank := scan_rank d |}.

(** The store after a registration that raised at a session call. *)
Definition aborted (c : SessionCall) (d : Database) (patient : PatientCreate.t)
  : Database :=
  match c with
  | add => d
  | flush => d
  | commit => rolled_back d
  | refresh => inserted d patient
  end.

(** A record that holds the five fields of a row, and nothing else. *)
Definition is_record_of (p : PatientTable.t) (data : Dict) : Prop :=
  dom data = {[ "id"; "name"; "age"; "gender"; "contact" ]} ∧
  data !! "id" = Some (from_option PyInt PyNone (PatientTable.id p)) ∧
  data !! "name" = Some (PyStr (PatientTable.name p)) ∧
  data !! "age" = Some (PyInt (PatientTable.age p)) ∧
  data !! "gender" = Some (PyStr (PatientTable.gender p)) ∧
  data !! "contact" = Some (PyStr (PatientTable.contact p)).

(** The session [get_db] hands to a handler. *)
Definition fresh_session (w : World) : Session :=
  {| world := w; objects := []; new := [] |}.

(** The four fields of a body, one by one. *)
Definition name_ok (b : Body.t) : Prop := 2 ≤ len (Body.name b) ≤ 100.
Definition age_ok (b : Body.t) : Prop := 1 ≤ Body.age b ≤ 149.
Definition gender_ok (b : Body.t) : Prop :=
  Body.gender b = "male" ∨ Body.gender b = "female" ∨ Body.gender b = "other".
Definition contact_ok (b : Body.t) : Prop := 5 ≤ len (Body.contact b) ≤ 20.

(** A session call the environment lets through. *)
Definition passes (c : SessionCall) (env : Env) : Prop :=
  ∀ msg, session_fault env ≠ Some (c, msg).

(** The first four statements of [create_patient], followed by the rest
    of the handler. *)
Definition registration {A : Type} (k : nat → M A) (patient : PatientCreate.t)
  : M A :=
  db_patient ← PatientTable_new
    (PatientCreate.name patient)
    (PatientCreate.age patient)
    (Gender.value (PatientCreate.gender patient))
    (PatientCreate.contact patient);
  db_add db_patient;;
  db_commit;;
  db_refresh db_patient;;
  k db_patient.

(** The [try] statement of [create_patient]. *)
Definition mirror (db_patient : nat) : M unit :=
  try_except
    (mongo_collection ← get_patients_collection;
     b ← truth collection_bool mongo_collection;
     if b : bool then
       p ← attrs db_patient;
       let patient_data := patient_to_dict p in
       created_at ← datetime_now_isoformat;
       let patient_data := <["created_at" := PyStr created_at]> patient_data in
       collection_insert_one patient_data
     else
       print "MongoDB collection is None, skipping MongoDB insert")
    (λ e, print ("Error inserting into MongoDB: " +:+ str_exn e)).

(** The world after the mirror write of a row: a skipped or failed write
    prints one line, a successful one appends the document. *)
Definition mirrored (env : Env) (row : PatientTable.t) (w : World) : World :=
  match mongo_db w with
  | None =>
      set_stdout
        (stdout w ++ ["MongoDB collection is None, skipping MongoDB insert"]) w
  | Some docs =>
      match driver_fault env with
      | Some (_, msg) =>
          set_stdout (stdout w ++ ["Error inserting into MongoDB: " +:+ msg]) w
      | None =>
          set_mongo_db
            (Some (docs ++ [<["created_at" := PyStr (now_isoformat env)]>
                              (patient_to_dict row)])) w
      end
  end.

(** The document store after a step: as it was, or with documents
    appended behind those it held. *)
Definition extends (before after : option (list Dict)) : Prop :=
  match before with
  | None => after = None
  | Some docs => ∃ more, after = Some (docs ++ more)
  end.

(** ** Sample inputs *)

(** An engine that rejects a negative OFFSET or LIMIT and scans in the
    order of insertion, with no rows yet. *)
Definition empty_database : Database :=
  {| patients := [];
     patients_id_seq := 1;
     negative_window := λ _ _ _, inl "OFFSET and LIMIT must not be negative";
     scan_rank := λ _, 0 |}.

(** A process whose document store is connected, and one where
    [init_mongodb] never connected. *)
Definition connected_world : World :=
  {| postgres := empty_database; mongo_db := Some []; stdout := [] |}.

Definition disconnected_world : World :=
  {| postgres := empty_database; mongo_db := None; stdout := [] |}.

Definition calm : Env :=
  {| session_fault := None; driver_fault := None;
     now_isoformat := "2024-05-01T10:00:00" |}.

Definition commit_fails : Env :=
  {| session_fault := Some (commit, "connection lost"); driver_fault := None;
     now_isoformat := "2024-05-01T10:00:00" |}.

Definition test_patient : Body.t :=
  Body.Build "Test Patient" 30 "male" "1234567890".

Definition the_other_patient : Body.t :=
  Body.Build "Test Patient ID" 35 "female" "9876543210".

Definition invalid_patient : Body.t :=
  Body.Build "T" 200 "invalid" "123".

(** A store that has served two registrations. *)
Definition two_patients : Database :=
  {| patients :=
       [ PatientTable.Build (Some 1) "Test Patient" 30 "male" "1234567890";
         PatientTable.Build (Some 2) "Test Patient ID" 35 "female" "9876543210" ];
     patients_id_seq := 3;
     negative_window := negative_window empty_database;
     scan_rank := scan_rank empty_database |}.

Definition clinic : World :=
  {| postgres := two_patients; mongo_db := Some []; stdout := [] |}.

(** The same store on an engine that returns the newer row first. *)
Definition newest_first_clinic : World :=
  {| postgres :=
       {| patients := patients two_patients;
          patients_id_seq := patients_id_seq two_patients;
          negative_window := negative_window two_patients;
          scan_rank := λ p, - default 0 (PatientTable.id p) |};
     mongo_db := Some [];
     stdout := [] |}.

(** ** Vocabulary of the further properties *)

(** The records of a 200 listing; no records for any other response. *)
Definition records (r : Response) : list Dict :=
  match status_code r, content r with
  | 200, JsonList l => l
  | _, _ => []
  end.

(** The pages [0 .. n-1] of size [size], one listing request each, put
    one behind the other. *)
Definition pages (env : Env) (size : Z) (n : nat) (w : World) : list Dict :=
  flat_map
    (λ k : nat,
       records (get_patients env (Some (Z.of_nat k * size)) (Some size) w).1)
    (seq 0 n).

(** The key of a document, and the order of documents by key. *)
Definition doc_id (doc : Dict) : option Z :=
  match doc !! "id" with
  | Some (PyInt i) => Some i
  | _ => None
  end.

Definition doc_lt (d1 d2 : Dict) : Prop :=
  match doc_id d1, doc_id d2 with
  | Some i, Some j => i < j
  | _, _ => False
  end.

(** A document that is the record of a row of the table with a
    [created_at] on top. *)
Definition mirrors (d : Database) (doc : Dict) : Prop :=
  ∃ row created_at,
    row ∈ patients d ∧
    doc = <["created_at" := PyStr created_at]> (patient_to_dict row).

(** A validated model written back as a body, the enumeration by its
    value. *)
Definition to_body (patient : PatientCreate.t) : Body.t :=
  Body.Build (PatientCreate.name patient) (PatientCreate.age patient)
    (Gender.value (PatientCreate.gender patient)) (PatientCreate.contact patient).

(** The two stores agree: every document mirrors a row, and the keys of
    the documents ascend and lie below the sequence. *)
Record Stores_ok (w : World) : Prop := {
  table_ok : Database_ok (postgres w);
  docs_mirror : ∀ docs, mongo_db w = Some docs → Forall (mirrors (postgres w)) docs;
  docs_ascending : ∀ docs, mongo_db w = Some docs → StronglySorted doc_lt docs;
  docs_below_seq :
    ∀ docs, mongo_db w = Some docs →
      Forall (λ doc, ∃ i, doc_id doc = Some i ∧ i < patients_id_seq (postgres w)) docs
}.

(** The worlds the process reaches when it starts on an empty table and
    an empty or unconnected collection. *)
Inductive served : World → Prop :=
| served_start w :
    patients (postgres w) = [] →
    mongo_db w = None ∨ mongo_db w = Some [] →
    served w
| served_next env rq w : served w → served (serve env rq w).2.

(** Faults on the session, one per call. *)
Definition add_fails (msg : string) : Env :=
  {| session_fault := Some (add, msg); driver_fault := None;
     now_isoformat := "2024-05-01T10:00:00" |}.

Definition refresh_fails (msg : string) : Env :=
  {| session_fault := Some (refresh, msg); driver_fault := None;
     now_isoformat := "2024-05-01T10:00:00" |}.

Definition insert_fails (msg : string) : Env :=
  {| session_fault := None; driver_fault := Some (insert_one, msg);
     now_isoformat := "2024-05-01T10:00:00" |}.

(** * Properties *)

(** ** Running handler code *)

Section Running.
Context {A B : Type}.

Lemma bind_run (m : M A) (f : A → M B) env s :
  (m ≫= f) env s =
  match m env s with
  | (inr x, s') => f x env s'
  | (inl e, s') => (inl e, s')
  end.
Proof. reflexivity. Qed.

Lemma bind_returns (m : M A) (f : A → M B) env s x s' :
  m env s = (inr x, s') → (m ≫= f) env s = f x env s'.
Proof. intros H. rewrite bind_run, H. reflexivity. Qed.

Lemma bind_raises (m : M A) (f : A → M B) env s e s' :
  m env s = (inl e, s') → (m ≫= f) env s = (inl e, s').
Proof. intros H. rewrite bind_run, H. reflexivity. Qed.
End Running.

Lemma session_call_run c env s :
  session_call c env s =
  match session_fault env with
  | Some (c', msg) =>
      if decide (c' = c) then (inl (Exception msg), s) else (inr (), s)
  | None => (inr (), s)
  end.
Proof.
  unfold session_call. rewrite bind_run. cbn.
  destruct (session_fault env) as [[c' msg]|]; [|reflexivity].
  destruct (decide (c' = c)); reflexivity.
Qed.

(** ** Validation *)

Lemma of_value_value g : Gender.of_value (Gender.value g) = Some g.
Proof. destruct g; reflexivity. Qed.

Lemma value_of_value s g : Gender.of_value s = Some g → Gender.value g = s.
Proof.
  unfold Gender.of_value. repeat case_decide; intros [= <-]; subst; reflexivity.
Qed.

Lemma of_value_Some s :
  is_Some (Gender.of_value s) ↔ s = "male" ∨ s = "female" ∨ s = "other".
Proof.
  unfold Gender.of_value. split.
  - repeat case_decide; intros [g Hg]; auto; discriminate.
  - intros [-> | [-> | ->]]; eexists; reflexivity.
Qed.

Lemma str_field_inr lo hi v :
  str_field lo hi v = inr v ↔ lo ≤ len v ≤ hi.
Proof.
  unfold str_field.
  destruct (Z.ltb_spec (len v) lo), (Z.ltb_spec hi (len v));
    split; intros ?; try discriminate; try lia; reflexivity.
Qed.

Lemma str_field_cases lo hi v :
  str_field lo hi v = inr v ∨ ∃ c, str_field lo hi v = inl c.
Proof. unfold str_field. repeat case_match; eauto. Qed.

Lemma int_field_inr lo hi v :
  int_field lo hi v = inr v ↔ lo < v < hi.
Proof.
  unfold int_field.
  destruct (Z.leb_spec v lo), (Z.leb_spec hi v);
    split; intros ?; try discriminate; try lia; reflexivity.
Qed.

Lemma int_field_cases lo hi v :
  int_field lo hi v = inr v ∨ ∃ c, int_field lo hi v = inl c.
Proof. unfold int_field. repeat case_match; eauto. Qed.

Lemma enum_field_inr v g :
  enum_field v = inr g ↔ Gender.of_value v = Some g.
Proof.
  unfold enum_field. destruct (Gender.of_value v); split; congruence.
Qed.

Lemma PatientBase_validate_inr name age gender contact v :
  PatientBase.validate name age gender contact = inr v →
  ∃ g, v = (name, age, g, contact) ∧
       str_field 2 100 name = inr name ∧ int_field 0 150 age = inr age ∧
       Gender.of_value gender = Some g ∧ str_field 5 20 contact = inr contact.
Proof.
  unfold PatientBase.validate.
  destruct (str_field_cases 2 100 name) as [Hn | [cn Hn]],
           (int_field_cases 0 150 age) as [Ha | [ca Ha]],
           (str_field_cases 5 20 contact) as [Hc | [cc Hc]];
    rewrite Hn, Ha, Hc;
    destruct (enum_field gender) as [cg | g] eqn:Hg; try discriminate.
  intros [= <-]. exists g. rewrite <- enum_field_inr. auto.
Qed.

Lemma PatientBase_validate_ok name age gender contact g :
  2 ≤ len name ≤ 100 → 1 ≤ age ≤ 149 → Gender.of_value gender = Some g →
  5 ≤ len contact ≤ 20 →
  PatientBase.validate name age gender contact = inr (name, age, g, contact).
Proof.
  intros Hn Ha Hg Hc. unfold PatientBase.validate.
  rewrite (proj2 (str_field_inr 2 100 name)) by lia.
  rewrite (proj2 (int_field_inr 0 150 age)) by lia.
  rewrite (proj2 (enum_field_inr gender g)) by done.
  rewrite (proj2 (str_field_inr 5 20 contact)) by lia.
  reflexivity.
Qed.

(** ** Dictionaries of rows *)

Lemma patient_to_dict_id p :
  patient_to_dict p !! "id" = Some (from_option PyInt PyNone (PatientTable.id p)).
Proof. reflexivity. Qed.

Lemma patient_to_dict_name p :
  patient_to_dict p !! "name" = Some (PyStr (PatientTable.name p)).
Proof. reflexivity. Qed.

Lemma patient_to_dict_age p :
  patient_to_dict p !! "age" = Some (PyInt (PatientTable.age p)).
Proof. reflexivity. Qed.

Lemma patient_to_dict_gender p :
  patient_to_dict p !! "gender" = Some (PyStr (PatientTable.gender p)).
Proof. reflexivity. Qed.

Lemma patient_to_dict_contact p :
  patient_to_dict p !! "contact" = Some (PyStr (PatientTable.contact p)).
Proof. reflexivity. Qed.

Lemma patient_to_dict_dom p :
  dom (patient_to_dict p) = {[ "id"; "name"; "age"; "gender"; "contact" ]}.
Proof.
  unfold patient_to_dict. cbn [list_to_map foldr uncurry].
  rewrite !dom_insert_L, dom_empty_L. set_solver.
Qed.

(** A row that is a patient record passes the response model as it is. *)
Lemma Patient_validate_row p :
  row_valid p → Patient.validate (patient_to_dict p) = Some (patient_to_dict p).
Proof.
  intros [[i Hi] [g Hg]]. unfold Patient.validate.
  rewrite patient_to_dict_id, patient_to_dict_name, patient_to_dict_age,
    patient_to_dict_gender, patient_to_dict_contact, Hi. cbn [from_option].
  rewrite Hg. apply PatientBase_validate_inr in Hg as (g' & [= <-] & _ & _ & Hv & _).
  unfold patient_to_dict. rewrite Hi, (value_of_value _ _ Hv). reflexivity.
Qed.

Lemma Patient_validate_rows rows :
  Forall row_valid rows →
  mapM Patient.validate (patient_to_dict <$> rows) = Some (patient_to_dict <$> rows).
Proof.
  intros Hrows. apply mapM_Some.
  induction Hrows as [|p rows Hp _ IH]; constructor;
    [apply Patient_validate_row, Hp | exact IH].
Qed.

(** Rows with the same dictionary have the same key. *)
Lemma patient_to_dict_is_record_of p : is_record_of p (patient_to_dict p).
Proof. split; [apply patient_to_dict_dom|]. repeat split. Qed.

Lemma patient_to_dict_inj_id p q :
  patient_to_dict p = patient_to_dict q →
  is_Some (PatientTable.id p) → PatientTable.id p = PatientTable.id q.
Proof.
  intros Heq [i Hi].
  assert (H : patient_to_dict p !! "id" = patient_to_dict q !! "id") by (rewrite Heq; done).
  rewrite !patient_to_dict_id, Hi in H. cbn in H.
  destruct (PatientTable.id q); cbn in H; congruence.
Qed.

(** ** The primary write *)

Lemma where_rows_miss i rows :
  Forall (λ p, PatientTable.id p ≠ Some i) rows → where_rows (Some i) rows = [].
Proof.
  unfold where_rows. induction 1 as [|p rows Hp _ IH]; [reflexivity|].
  rewrite filter_cons_False by exact Hp. exact IH.
Qed.

Lemma head_where_fresh i rows row :
  Forall (λ p, PatientTable.id p ≠ Some i) rows →
  PatientTable.id row = Some i →
  head (where_rows (Some i) (rows ++ [row])) = Some row.
Proof.
  intros Hrows Hrow. pose proof (where_rows_miss i rows Hrows) as Hmiss.
  unfold where_rows in *. rewrite filter_app, Hmiss.
  rewrite filter_cons_True by exact Hrow. reflexivity.
Qed.

Lemma below_seq_fresh d :
  Database_ok d →
  Forall (λ p, PatientTable.id p ≠ Some (patients_id_seq d)) (patients d).
Proof.
  intros Hok. eapply Forall_impl; [apply (ids_below_seq d Hok)|].
  intros p Hp Heq. specialize (Hp _ Heq). lia.
Qed.

Lemma session_call_passes c env s :
  passes c env → session_call c env s = (inr (), s).
Proof.
  intros Hp. rewrite session_call_run.
  destruct (session_fault env) as [[c' msg]|] eqn:Hf; [|reflexivity].
  case_decide; [|reflexivity]. subst. destruct (Hp msg Hf).
Qed.

Lemma session_call_raises c msg env s :
  session_fault env = Some (c, msg) →
  session_call c env s = (inl (Exception msg), s).
Proof.
  intros Hf. rewrite session_call_run, Hf. case_decide; [reflexivity|done].
Qed.

Lemma no_fault_passes c env : session_fault env = None → passes c env.
Proof. intros Hf msg. rewrite Hf. discriminate. Qed.

Lemma other_fault_passes c c' msg env :
  session_fault env = Some (c', msg) → c' ≠ c → passes c env.
Proof. intros Hf Hne msg'. rewrite Hf. congruence. Qed.

Lemma PatientTable_new_run name age gender contact env s :
  PatientTable_new name age gender contact env s =
  (inr (length (objects s)),
   {| world := world s;
      objects := objects s ++ [PatientTable.Build None name age gender contact];
      new := new s |}).
Proof. reflexivity. Qed.

Lemma db_add_run r env s :
  passes add env →
  db_add r env s =
  (inr (), {| world := world s; objects := objects s; new := new s ++ [r] |}).
Proof.
  intros Hp. unfold db_add.
  rewrite (bind_returns _ _ _ _ _ _ (session_call_passes add env s Hp)).
  reflexivity.
Qed.

Lemma db_commit_run env s :
  passes flush env → passes commit env →
  db_commit env s =
  (inr (), {| world := world (foldl flush_one s (new s));
              objects := objects (foldl flush_one s (new s));
              new := [] |}).
Proof.
  intros Hf Hc. unfold db_commit.
  rewrite (bind_returns _ _ _ _ _ _ (session_call_passes flush env s Hf)).
  cbv [mbind M_bind get put try_except].
  rewrite (session_call_passes commit env _ Hc). reflexivity.
Qed.

Lemma db_commit_raises_at_flush env s msg :
  session_fault env = Some (flush, msg) →
  db_commit env s = (inl (Exception msg), s).
Proof.
  intros Hs. unfold db_commit. apply bind_raises, session_call_raises, Hs.
Qed.

Lemma db_commit_raises_at_commit env s msg :
  session_fault env = Some (commit, msg) →
  db_commit env s =
  (inl (Exception msg),
   let s' := foldl flush_one s (new s) in
   {| world := set_postgres
                 {| patients := patients (postgres (world s));
                    patients_id_seq := patients_id_seq (postgres (world s'));
                    negative_window := negative_window (postgres (world s'));
                    scan_rank := scan_rank (postgres (world s')) |}
                 (world s');
      objects := objects s;
      new := [] |}).
Proof.
  intros Hs. unfold db_commit.
  rewrite (bind_returns _ _ _ _ _ _
             (session_call_passes flush env s
                (other_fault_passes flush _ _ _ Hs ltac:(done)))).
  cbv [mbind M_bind get put try_except db_rollback raise].
  rewrite (session_call_raises commit msg env _ Hs). reflexivity.
Qed.

Lemma db_refresh_run r env s p i row :
  passes refresh env →
  objects s !! r = Some p →
  PatientTable.id p = Some i →
  head (where_rows (Some i) (patients (postgres (world s)))) = Some row →
  db_refresh r env s =
  (inr (), {| world := world s; objects := <[r := row]> (objects s); new := new s |}).
Proof.
  intros Hp Hr Hi Hrow. unfold db_refresh.
  rewrite (bind_returns _ _ _ _ _ _ (session_call_passes refresh env s Hp)).
  rewrite bind_run. cbn [get]. rewrite Hr, Hi, Hrow. reflexivity.
Qed.

Section Primary.
Context {A : Type} (k : nat → M A).
Variables (env : Env) (w : World) (patient : PatientCreate.t).

(** With no fault on the session the row is committed, the object is
    reloaded from it, and the rest of the handler runs. *)
Lemma registration_commits :
  session_fault env = None →
  Database_ok (postgres w) →
  registration k patient env (fresh_session w) =
  k 0%nat env
    {| world := set_postgres (inserted (postgres w) patient) w;
       objects := [new_row (postgres w) patient];
       new := [] |}.
Proof.
  intros Hs Hok. unfold registration.
  rewrite (bind_returns _ _ _ _ _ _ (PatientTable_new_run _ _ _ _ _ _)).
  rewrite (bind_returns _ _ _ _ _ _ (db_add_run _ _ _ (no_fault_passes add _ Hs))).
  rewrite (bind_returns _ _ _ _ _ _
             (db_commit_run _ _ (no_fault_passes flush _ Hs)
                (no_fault_passes commit _ Hs))).
  cbn [fresh_session objects new world length app foldl flush_one lookup list_lookup
       PatientTable.name PatientTable.age PatientTable.gender PatientTable.contact
       list_insert insert].
  pose proof (head_where_fresh _ _ (new_row (postgres w) patient)
                (below_seq_fresh _ Hok) eq_refl) as Hrow.
  rewrite (bind_returns _ _ _ _ _ _
             (db_refresh_run 0 env
                {| world := set_postgres (inserted (postgres w) patient) w;
                   objects := [new_row (postgres w) patient];
                   new := [] |}
                (new_row (postgres w) patient) _ _
                (no_fault_passes refresh _ Hs) eq_refl eq_refl Hrow)).
  reflexivity.
Qed.

(** With a fault on the session the handler raises before the rest
    runs. Nothing but the relational store can have changed: the
    sequence where the fault comes after the INSERT, the table where it
    comes on the reload after the commit. *)
Lemma registration_aborts c msg :
  session_fault env = Some (c, msg) →
  ∃ s, registration k patient env (fresh_session w) = (inl (Exception msg), s) ∧
       world s = set_postgres (aborted c (postgres w) patient) w.
Proof.
  intros Hs. unfold registration.
  rewrite (bind_returns _ _ _ _ _ _ (PatientTable_new_run _ _ _ _ _ _)).
  destruct c.
  - eexists. split.
    + apply bind_raises. unfold db_add. apply bind_raises.
      apply session_call_raises, Hs.
    + destruct w; reflexivity.
  - rewrite (bind_returns _ _ _ _ _ _
               (db_add_run _ _ _ (other_fault_passes add _ _ _ Hs ltac:(done)))).
    eexists. split.
    + apply bind_raises, db_commit_raises_at_flush, Hs.
    + destruct w; reflexivity.
  - rewrite (bind_returns _ _ _ _ _ _
               (db_add_run _ _ _ (other_fault_passes add _ _ _ Hs ltac:(done)))).
    eexists. split.
    + apply bind_raises, db_commit_raises_at_commit, Hs.
    + reflexivity.
  - rewrite (bind_returns _ _ _ _ _ _
               (db_add_run _ _ _ (other_fault_passes add _ _ _ Hs ltac:(done)))).
    rewrite (bind_returns _ _ _ _ _ _
               (db_commit_run _ _ (other_fault_passes flush _ _ _ Hs ltac:(done))
                  (other_fault_passes commit _ _ _ Hs ltac:(done)))).
    eexists. split.
    + apply bind_raises. unfold db_refresh. apply bind_raises.
      apply session_call_raises, Hs.
    + reflexivity.
Qed.
End Primary.

(** ** The mirror write *)

Lemma create_patient_stages patient :
  create_patient patient =
  registration (λ db_patient,
    mirror db_patient;; p ← attrs db_patient; mret (patient_to_dict p)) patient.
Proof. reflexivity. Qed.

Lemma mirror_run r env s row :
  objects s !! r = Some row →
  mirror r env s =
  (inr (), {| world := mirrored env row (world s);
              objects := objects s; new := new s |}).
Proof.
  intros Hr. unfold mirrored.
  cbv [mirror try_except get_patients_collection truth mbind M_bind mret M_ret
       get put ask raise attrs datetime_now_isoformat collection_insert_one
       print driver_call].
  destruct (mongo_db (world s)) as [docs|] eqn:Hm; [|reflexivity].
  destruct (driver_fault env) as [[c msg]|] eqn:Hf; [destruct c|];
    repeat first
      [ progress cbv beta iota zeta
      | rewrite Hf | rewrite Hm | rewrite Hr
      | case_decide; [congruence|] | case_decide; [|congruence] ];
    reflexivity.
Qed.

(** ** Registration, stage by stage *)

Lemma PatientCreate_validate_inr body patient :
  PatientCreate.validate body = inr patient →
  (name_ok body ∧ age_ok body ∧ gender_ok body ∧ contact_ok body) ∧
  PatientCreate.name patient = Body.name body ∧
  PatientCreate.age patient = Body.age body ∧
  Gender.value (PatientCreate.gender patient) = Body.gender body ∧
  PatientCreate.contact patient = Body.contact body.
Proof.
  unfold PatientCreate.validate.
  destruct (PatientBase.validate _ _ _ _) as [errors | [[[n a] g] c]] eqn:Hv;
    [discriminate|].
  intros [= <-]. apply PatientBase_validate_inr in Hv as (g' & [= -> -> <- ->] & Hn & Ha & Hg & Hc).
  apply str_field_inr in Hn, Hc. apply int_field_inr in Ha.
  unfold name_ok, age_ok, gender_ok, contact_ok. cbn.
  rewrite <- of_value_Some, Hg, (value_of_value _ _ Hg).
  repeat split; eauto; lia.
Qed.

Lemma PatientCreate_validate_ok body :
  name_ok body → age_ok body → gender_ok body → contact_ok body →
  ∃ patient, PatientCreate.validate body = inr patient.
Proof.
  intros Hn Ha Hg Hc. apply of_value_Some in Hg as [g Hg].
  unfold PatientCreate.validate.
  rewrite (PatientBase_validate_ok _ _ _ _ g Hn Ha Hg Hc). eauto.
Qed.

Lemma new_row_valid d body patient :
  PatientCreate.validate body = inr patient → row_valid (new_row d patient).
Proof.
  intros Hv. apply PatientCreate_validate_inr in Hv as ((Hn & Ha & Hg & Hc) & En & Ea & Eg & Ec).
  split; [eexists; reflexivity|]. exists (PatientCreate.gender patient). cbn.
  apply PatientBase_validate_ok.
  - rewrite En. exact Hn.
  - rewrite Ea. exact Ha.
  - apply of_value_value.
  - rewrite Ec. exact Hc.
Qed.

Lemma attrs_run r env s p :
  objects s !! r = Some p → attrs r env s = (inr p, s).
Proof. intros Hr. unfold attrs. rewrite bind_run. cbn [get]. rewrite Hr. reflexivity. Qed.

Lemma create_patient_commits env w patient :
  session_fault env = None →
  Database_ok (postgres w) →
  with_db env w (create_patient patient) =
  (inr (patient_to_dict (new_row (postgres w) patient)),
   mirrored env (new_row (postgres w) patient)
     (set_postgres (inserted (postgres w) patient) w)).
Proof.
  intros Hs Hok. unfold with_db. fold (fresh_session w).
  rewrite create_patient_stages, (registration_commits _ _ _ _ Hs Hok).
  erewrite bind_returns by (apply mirror_run; reflexivity).
  erewrite bind_returns by (apply attrs_run; reflexivity).
  reflexivity.
Qed.

Lemma create_patient_aborts env w patient c msg :
  session_fault env = Some (c, msg) →
  with_db env w (create_patient patient) =
  (inl (Exception msg),
   set_postgres
     (aborted c (postgres w) patient) w).
Proof.
  intros Hs. unfold with_db. fold (fresh_session w).
  rewrite create_patient_stages.
  destruct (registration_aborts
              (λ db_patient, mirror db_patient;; p ← attrs db_patient;
                             mret (patient_to_dict p))
              env w patient c msg Hs) as (s & -> & <-).
  reflexivity.
Qed.

Lemma post_patients_created env w body patient :
  PatientCreate.validate body = inr patient →
  session_fault env = None →
  Database_ok (postgres w) →
  post_patients env body w =
  ({| status_code := 201;
      content := Json (patient_to_dict (new_row (postgres w) patient)) |},
   mirrored env (new_row (postgres w) patient)
     (set_postgres (inserted (postgres w) patient) w)).
Proof.
  intros Hv Hs Hok. unfold post_patients.
  rewrite Hv, (create_patient_commits _ _ _ Hs Hok). unfold respond.
  rewrite (Patient_validate_row _ (new_row_valid (postgres w) _ _ Hv)).
  reflexivity.
Qed.

Lemma post_patients_aborted env w body patient c msg :
  PatientCreate.validate body = inr patient →
  session_fault env = Some (c, msg) →
  post_patients env body w =
  ({| status_code := 500; content := InternalServerError |},
   set_postgres
     (aborted c (postgres w) patient) w).
Proof.
  intros Hv Hs. unfold post_patients.
  rewrite Hv, (create_patient_aborts _ _ _ _ _ Hs). reflexivity.
Qed.

Lemma mirrored_postgres env row w : postgres (mirrored env row w) = postgres w.
Proof.
  unfold mirrored. destruct (mongo_db w); [|reflexivity].
  destruct (driver_fault env) as [[c msg]|]; reflexivity.
Qed.

(** ** Rejected bodies *)

Lemma name_checked body :
  name_ok body ∧ str_field 2 100 (Body.name body) = inr (Body.name body) ∨
  ¬ name_ok body ∧ ∃ c, str_field 2 100 (Body.name body) = inl c.
Proof.
  unfold name_ok. rewrite <- str_field_inr.
  destruct (str_field_cases 2 100 (Body.name body)) as [H | [c H]];
    rewrite H; [left | right]; split; eauto; discriminate.
Qed.

Lemma age_checked body :
  age_ok body ∧ int_field 0 150 (Body.age body) = inr (Body.age body) ∨
  ¬ age_ok body ∧ ∃ c, int_field 0 150 (Body.age body) = inl c.
Proof.
  assert (H01 : age_ok body ↔ int_field 0 150 (Body.age body) = inr (Body.age body)).
  { rewrite int_field_inr. unfold age_ok. lia. }
  rewrite H01.
  destruct (int_field_cases 0 150 (Body.age body)) as [H | [c H]];
    rewrite H; [left | right]; split; eauto; discriminate.
Qed.

Lemma gender_checked body :
  gender_ok body ∧ (∃ g, enum_field (Body.gender body) = inr g) ∨
  ¬ gender_ok body ∧ enum_field (Body.gender body) = inl Field.enum_member.
Proof.
  unfold gender_ok, enum_field. rewrite <- of_value_Some.
  destruct (Gender.of_value (Body.gender body)) as [g|]; [left | right].
  - split; eauto.
  - split; [intros [g [=]] | reflexivity].
Qed.

Lemma contact_checked body :
  contact_ok body ∧ str_field 5 20 (Body.contact body) = inr (Body.contact body) ∨
  ¬ contact_ok body ∧ ∃ c, str_field 5 20 (Body.contact body) = inl c.
Proof.
  unfold contact_ok. rewrite <- str_field_inr.
  destruct (str_field_cases 5 20 (Body.contact body)) as [H | [c H]];
    rewrite H; [left | right]; split; eauto; discriminate.
Qed.

Lemma post_patients_rejected env w body :
  ¬ (name_ok body ∧ age_ok body ∧ gender_ok body ∧ contact_ok body) →
  ∃ errors,
    post_patients env body w =
      ({| status_code := 422; content := DetailErrors errors |}, w) ∧
    (¬ name_ok body ↔ ["body"; "name"] ∈ loc <$> errors) ∧
    (¬ age_ok body ↔ ["body"; "age"] ∈ loc <$> errors) ∧
    (¬ gender_ok body ↔ ["body"; "gender"] ∈ loc <$> errors) ∧
    (¬ contact_ok body ↔ ["body"; "contact"] ∈ loc <$> errors).
Proof.
  intros Hbad. unfold post_patients, PatientCreate.validate, PatientBase.validate.
  destruct (name_checked body) as [[Hn En] | [Hn [cn En]]],
           (age_checked body) as [[Ha Ea] | [Ha [ca Ea]]],
           (gender_checked body) as [[Hg [g Eg]] | [Hg Eg]],
           (contact_checked body) as [[Hc Ec] | [Hc [cc Ec]]];
    rewrite En, Ea, Eg, Ec.
  all: try (eexists; split; [reflexivity|]; cbn;
            rewrite ?elem_of_cons, ?elem_of_nil; intuition congruence).
  destruct Hbad. auto.
Qed.

(** ** What a request can do to the document store *)

Lemma extends_refl m : extends m m.
Proof. destruct m as [docs|]; [exists []; rewrite app_nil_r|]; reflexivity. Qed.

Lemma mirror_run_stale r env s :
  objects s !! r = None →
  ∃ line, mirror r env s =
    (inr (), {| world := set_stdout (stdout (world s) ++ [line]) (world s);
                objects := objects s; new := new s |}).
Proof.
  intros Hr.
  cbv [mirror try_except get_patients_collection truth mbind M_bind mret M_ret
       get put ask raise attrs datetime_now_isoformat collection_insert_one
       print driver_call].
  destruct (mongo_db (world s)) as [docs|] eqn:Hm; [|eexists; reflexivity].
  destruct (driver_fault env) as [[c msg]|] eqn:Hf; [destruct c|];
    repeat first
      [ progress cbv beta iota zeta
      | rewrite Hf | rewrite Hm | rewrite Hr
      | case_decide; [congruence|] | case_decide; [|congruence] ];
    eexists; reflexivity.
Qed.

Lemma mirrored_extends env row w : extends (mongo_db w) (mongo_db (mirrored env row w)).
Proof.
  unfold mirrored, extends. destruct (mongo_db w) as [docs|] eqn:Hm; cbn.
  - destruct (driver_fault env) as [[c msg]|]; cbn; rewrite ?Hm.
    + exists []. rewrite app_nil_r. reflexivity.
    + eexists. reflexivity.
  - exact Hm.
Qed.

(** The mirror step never raises and never touches the relational
    store; it leaves the documents already stored in place. *)
Lemma mirror_total r env s :
  ∃ w', mirror r env s = (inr (), {| world := w'; objects := objects s; new := new s |}) ∧
        postgres w' = postgres (world s) ∧
        extends (mongo_db (world s)) (mongo_db w').
Proof.
  destruct (objects s !! r) as [row|] eqn:Hr.
  - eexists. split; [apply (mirror_run _ _ _ _ Hr)|].
    split; [apply mirrored_postgres | apply mirrored_extends].
  - destruct (mirror_run_stale r env s Hr) as [line ->].
    eexists. split; [reflexivity|]. split; [reflexivity | apply extends_refl].
Qed.

(** The first four statements either raise, having written to nothing
    but the relational store, or hand over to the rest of the handler
    with the secondary store and the output as they were. *)
Lemma registration_outcome {A : Type} (k : nat → M A) env w patient :
  (∃ e s, registration k patient env (fresh_session w) = (inl e, s) ∧
          mongo_db (world s) = mongo_db w ∧ stdout (world s) = stdout w) ∨
  (∃ s, registration k patient env (fresh_session w) = k 0%nat env s ∧
        mongo_db (world s) = mongo_db w ∧ stdout (world s) = stdout w).
Proof.
  destruct (session_fault env) as [[c msg]|] eqn:Hs.
  - left. destruct (registration_aborts k env w patient c msg Hs) as (s & Hrun & Hw).
    exists (Exception msg), s. rewrite Hrun, Hw. auto.
  - unfold registration.
    rewrite (bind_returns _ _ _ _ _ _ (PatientTable_new_run _ _ _ _ _ _)).
    rewrite (bind_returns _ _ _ _ _ _ (db_add_run _ _ _ (no_fault_passes add _ Hs))).
    rewrite (bind_returns _ _ _ _ _ _
               (db_commit_run _ _ (no_fault_passes flush _ Hs)
                  (no_fault_passes commit _ Hs))).
    cbn [fresh_session objects new world length app foldl flush_one lookup list_lookup
         PatientTable.name PatientTable.age PatientTable.gender PatientTable.contact
         list_insert insert].
    rewrite bind_run. unfold db_refresh.
    rewrite (bind_returns _ _ _ _ _ _
               (session_call_passes refresh env _ (no_fault_passes refresh _ Hs))).
    rewrite bind_run. cbn [get objects lookup list_lookup PatientTable.id].
    match goal with |- context [head ?l] => destruct (head l) as [row|] end.
    + right. eexists. split; [reflexivity|]. split; reflexivity.
    + left. eexists _, _. split; [reflexivity|]. split; reflexivity.
Qed.

Lemma create_patient_extends env w patient :
  extends (mongo_db w) (mongo_db (with_db env w (create_patient patient)).2).
Proof.
  unfold with_db. fold (fresh_session w). rewrite create_patient_stages.
  destruct (registration_outcome
              (λ db_patient, mirror db_patient;; p ← attrs db_patient;
                             mret (patient_to_dict p)) env w patient)
    as [(e & s & -> & Hm & _) | (s & -> & Hm & _)]; cbn [snd].
  - rewrite Hm. apply extends_refl.
  - destruct (mirror_total 0 env s) as (w' & Hrun & _ & Hext).
    rewrite (bind_returns _ _ _ _ _ _ Hrun), bind_run.
    unfold attrs at 1. rewrite bind_run. cbn [get objects].
    rewrite <- Hm.
    destruct (objects s !! 0%nat); exact Hext.
Qed.

Lemma post_patients_extends env w body :
  extends (mongo_db w) (mongo_db (post_patients env body w).2).
Proof.
  unfold post_patients. destruct (PatientCreate.validate body) as [errors|patient].
  - apply extends_refl.
  - pose proof (create_patient_extends env w patient) as H.
    destruct (with_db env w (create_patient patient)) as [r w']. exact H.
Qed.

(** ** The read handlers *)

Lemma read_patients_served env w skip limit_ :
  with_db env w (read_patients skip limit_) =
  (match select (postgres w)
           {| whereclause := None;
              offset_clause := Some skip;
              limit_clause := Some limit_ |} with
   | inr rows => inr (patient_to_dict <$> rows)
   | inl e => inl e
   end, w).
Proof.
  unfold with_db, read_patients, db_all, limit, offset, query.
  cbv [mbind M_bind mret M_ret get raise world whereclause offset_clause limit_clause].
  destruct (select _ _); reflexivity.
Qed.

Lemma head_take_1 {A : Type} (l : list A) : head (take 1 l) = head l.
Proof. destruct l; reflexivity. Qed.

(** The scan returns the rows it is given, each once, in some order. *)
Lemma scan_insert_Permutation rank p l : scan_insert rank p l ≡ₚ p :: l.
Proof.
  induction l as [|q l IH]; [reflexivity|]. cbn.
  destruct (rank p <=? rank q); [reflexivity|].
  rewrite IH. apply Permutation_swap.
Qed.

Lemma scan_rows_Permutation d rows : scan_rows d rows ≡ₚ rows.
Proof.
  unfold scan_rows. induction rows as [|p rows IH]; [reflexivity|]. cbn.
  rewrite scan_insert_Permutation, IH. reflexivity.
Qed.

Lemma elem_of_scan_rows d rows p : p ∈ scan_rows d rows ↔ p ∈ rows.
Proof. rewrite scan_rows_Permutation. reflexivity. Qed.

Lemma Forall_scan_rows (P : PatientTable.t → Prop) d rows :
  Forall P rows → Forall P (scan_rows d rows).
Proof. rewrite scan_rows_Permutation. auto. Qed.

Lemma length_scan_rows d rows : length (scan_rows d rows) = length rows.
Proof. rewrite scan_rows_Permutation. reflexivity. Qed.

(** An engine that ranks all rows alike returns them as inserted. *)
Lemma scan_rows_insertion_order d rows :
  (∀ p q, scan_rank d p = scan_rank d q) → scan_rows d rows = rows.
Proof.
  intros Hflat. unfold scan_rows. induction rows as [|p rows IH]; [reflexivity|].
  cbn. rewrite IH. destruct rows as [|q rows]; [reflexivity|]. cbn.
  rewrite (Hflat p q), Z.leb_refl. reflexivity.
Qed.

Lemma read_patient_served env w patient_id :
  with_db env w (read_patient patient_id) =
  (match head (scan_rows (postgres w)
                 (where_rows (Some patient_id) (patients (postgres w)))) with
   | Some patient => inr (patient_to_dict patient)
   | None => inl (HTTPException 404 "Patient not found")
   end, w).
Proof.
  assert (Hfirst : ∀ d rows,
            window_rows d None (Some 1) rows = inr (take 1 (scan_rows d rows)))
    by reflexivity.
  unfold with_db, read_patient, db_first, db_all, limit, filter_id, query, select.
  cbv [mbind M_bind mret M_ret get raise world whereclause offset_clause limit_clause].
  rewrite Hfirst, head_take_1.
  destruct (head _); reflexivity.
Qed.

Lemma select_window d skip limit_ :
  0 ≤ skip < 2 ^ 63 → 0 ≤ limit_ < 2 ^ 63 →
  select d {| whereclause := None;
              offset_clause := Some skip;
              limit_clause := Some limit_ |} =
  inr (take (Z.to_nat limit_) (drop (Z.to_nat skip) (scan_rows d (patients d)))).
Proof.
  intros Hs Hl. unfold select, window_rows, is_negative, is_too_big.
  cbn [offset_clause limit_clause whereclause where_rows].
  destruct (Z.ltb_spec skip 0), (Z.ltb_spec limit_ 0); try lia.
  destruct (Z.leb_spec (2 ^ 63) skip), (Z.leb_spec (2 ^ 63) limit_); try lia.
  reflexivity.
Qed.

Lemma select_too_big d skip limit_ :
  0 ≤ skip → 0 ≤ limit_ → 2 ^ 63 ≤ skip ∨ 2 ^ 63 ≤ limit_ →
  select d {| whereclause := None;
              offset_clause := Some skip;
              limit_clause := Some limit_ |} =
  inl (Exception "integer out of range").
Proof.
  intros Hs Hl Hbig. unfold select, window_rows, is_negative, is_too_big.
  cbn [offset_clause limit_clause whereclause where_rows].
  destruct (Z.ltb_spec skip 0), (Z.ltb_spec limit_ 0); try lia.
  destruct (Z.leb_spec (2 ^ 63) skip), (Z.leb_spec (2 ^ 63) limit_); try lia;
    reflexivity.
Qed.

Lemma select_negative d skip limit_ :
  skip < 0 ∨ limit_ < 0 →
  select d {| whereclause := None;
              offset_clause := Some skip;
              limit_clause := Some limit_ |} =
  match negative_window d (Some skip) (Some limit_) (patients d) with
  | inl msg => inl (Exception msg)
  | inr rows => inr rows
  end.
Proof.
  intros Hneg. unfold select, window_rows, is_negative.
  cbn [offset_clause limit_clause whereclause where_rows].
  destruct (Z.ltb_spec skip 0), (Z.ltb_spec limit_ 0); try lia; reflexivity.
Qed.

(** In a well-formed table the key selects its row and no other. *)
Lemma where_unique rows p i :
  StronglySorted id_lt rows → p ∈ rows → PatientTable.id p = Some i →
  where_rows (Some i) rows = [p].
Proof.
  unfold where_rows. induction 1 as [|q rows _ IH Hq]; intros Hin Hi.
  - inv Hin.
  - destruct (decide (PatientTable.id q = Some i)) as [Hqi | Hqi].
    + rewrite filter_cons_True by exact Hqi.
      assert (Hrest : filter (λ r, PatientTable.id r = Some i) rows = []).
      { apply (where_rows_miss i rows). eapply Forall_impl; [exact Hq|].
        intros r Hr Heq. unfold id_lt in Hr. rewrite Hqi, Heq in Hr. lia. }
      rewrite Hrest. f_equal.
      apply elem_of_cons in Hin as [-> | Hin]; [reflexivity|].
      rewrite Forall_forall in Hq. specialize (Hq p Hin).
      unfold id_lt in Hq. rewrite Hqi, Hi in Hq. lia.
    + rewrite filter_cons_False by exact Hqi.
      apply elem_of_cons in Hin as [-> | Hin]; [contradiction|]. auto.
Qed.

Lemma head_scan_where_unique d rows p i :
  StronglySorted id_lt rows → p ∈ rows → PatientTable.id p = Some i →
  head (scan_rows d (where_rows (Some i) rows)) = Some p.
Proof.
  intros Hsorted Hp Hi. rewrite (where_unique rows p i Hsorted Hp Hi). reflexivity.
Qed.

(** The rows of a well-formed table have pairwise distinct records. *)
Lemma records_NoDup rows :
  StronglySorted id_lt rows → Forall row_valid rows →
  NoDup (patient_to_dict <$> rows).
Proof.
  induction 1 as [|q rows _ IH Hq]; intros Hvalid; [constructor|].
  apply Forall_cons in Hvalid as [Hvq Hvalid]. cbn. constructor; [|auto].
  intros Hin. apply list_elem_of_fmap in Hin as (p & Heq & Hp).
  pose proof (patient_to_dict_inj_id q p Heq (proj1 Hvq)) as Hid.
  rewrite Forall_forall in Hq. specialize (Hq p Hp).
  unfold id_lt in Hq. rewrite Hid in Hq.
  destruct (PatientTable.id p); [lia | exact Hq].
Qed.

(** Two pages cut from the same rows one behind the other share no
    record. *)
Lemma pages_disjoint (rows : list PatientTable.t) n m d :
  NoDup (patient_to_dict <$> rows) →
  d ∈ patient_to_dict <$> take n rows →
  d ∉ patient_to_dict <$> take m (drop n rows).
Proof.
  intros Hnodup Hfirst Hsecond.
  rewrite <- (take_drop n rows), fmap_app in Hnodup.
  apply NoDup_app in Hnodup as (_ & Hdisjoint & _).
  apply (Hdisjoint d Hfirst).
  apply list_elem_of_fmap in Hsecond as (q & -> & Hq).
  apply list_elem_of_fmap_2, (subseteq_take m), Hq.
Qed.

(** ** The well-formed stores are those the program produces *)

Lemma empty_database_ok : Database_ok empty_database.
Proof. split; constructor. Qed.

Lemma inserted_ok d body patient :
  PatientCreate.validate body = inr patient →
  Database_ok d → Database_ok (inserted d patient).
Proof.
  intros Hv [Hvalid Hsorted Hbelow]. split; cbn.
  - apply Forall_app. split; [exact Hvalid|].
    constructor; [apply (new_row_valid d body patient Hv) | constructor].
  - apply StronglySorted_app_2; [|exact Hsorted|repeat constructor].
    intros p q Hp Hq. apply list_elem_of_singleton in Hq as ->.
    rewrite Forall_forall in Hvalid, Hbelow.
    destruct (Hvalid p Hp) as [[i Hi] _]. specialize (Hbelow p Hp i Hi).
    unfold id_lt. rewrite Hi. cbn. exact Hbelow.
  - apply Forall_app. split.
    + eapply Forall_impl; [exact Hbelow|]. cbn. intros p Hp i Hi.
      specialize (Hp i Hi). lia.
    + constructor; [|constructor]. cbn. intros i [= <-]. lia.
Qed.

Lemma rolled_back_ok d : Database_ok d → Database_ok (rolled_back d).
Proof.
  intros [Hvalid Hsorted Hbelow]. split; cbn; [exact Hvalid | exact Hsorted |].
  eapply Forall_impl; [exact Hbelow|]. cbn. intros p Hp i Hi.
  specialize (Hp i Hi). lia.
Qed.

Lemma aborted_ok c d body patient :
  PatientCreate.validate body = inr patient →
  Database_ok d → Database_ok (aborted c d patient).
Proof.
  intros Hv Hok. destruct c; cbn [aborted];
    [exact Hok | exact Hok | apply rolled_back_ok, Hok | apply (inserted_ok _ _ _ Hv Hok)].
Qed.

Lemma get_patients_world env skip limit_ w : (get_patients env skip limit_ w).2 = w.
Proof. unfold get_patients. rewrite read_patients_served. reflexivity. Qed.

Lemma get_patient_world env patient_id w : (get_patient env patient_id w).2 = w.
Proof. unfold get_patient. rewrite read_patient_served. reflexivity. Qed.

Lemma serve_ok env rq w :
  Database_ok (postgres w) → Database_ok (postgres (serve env rq w).2).
Proof.
  intros Hok. destruct rq as [body | skip limit_ | patient_id]; cbn [serve].
  - destruct (PatientCreate.validate body) as [errors | patient] eqn:Hv.
    + unfold post_patients. rewrite Hv. exact Hok.
    + destruct (session_fault env) as [[c msg]|] eqn:Hs.
      * rewrite (post_patients_aborted _ _ _ _ _ _ Hv Hs). cbn [snd postgres set_postgres].
        apply (aborted_ok _ _ _ _ Hv Hok).
      * rewrite (post_patients_created _ _ _ _ Hv Hs Hok). cbn [snd].
        rewrite mirrored_postgres. apply (inserted_ok _ _ _ Hv Hok).
  - rewrite get_patients_world. exact Hok.
  - rewrite get_patient_world. exact Hok.
Qed.

Lemma reachable_ok w : reachable w → Database_ok (postgres w).
Proof.
  induction 1 as [w Hempty | env rq w _ IH].
  - split; rewrite Hempty; constructor.
  - apply serve_ok, IH.
Qed.

Lemma serve_extends env rq w :
  extends (mongo_db w) (mongo_db (serve env rq w).2).
Proof.
  destruct rq as [body | skip limit_ | patient_id]; cbn [serve].
  - apply post_patients_extends.
  - rewrite get_patients_world. apply extends_refl.
  - rewrite get_patient_world. apply extends_refl.
Qed.

(** ** app/tests/test_patient_routes.py

    The tests of the repository, run on the model. The test client does
    not run the startup events, so the document store is not connected. *)

Example test_create_patient :
  let response := (post_patients calm test_patient disconnected_world).1 in
  status_code response = 201 ∧
  ∃ data, content response = Json data ∧
          data !! "name" = Some (PyStr "Test Patient") ∧
          data !! "age" = Some (PyInt 30) ∧
          data !! "gender" = Some (PyStr "male") ∧
          data !! "contact" = Some (PyStr "1234567890") ∧
          is_Some (data !! "id").
Proof.
  split; [reflexivity|]. eexists. split; [vm_compute; reflexivity|].
  repeat split; try reflexivity. eexists. reflexivity.
Qed.

Example test_read_patients :
  let w := (post_patients calm test_patient disconnected_world).2 in
  let response := (get_patients calm None None w).1 in
  status_code response = 200 ∧
  ∃ first rest, content response = JsonList (first :: rest) ∧
                first !! "name" = Some (PyStr "Test Patient").
Proof.
  split; [reflexivity|]. eexists _, _. split; [vm_compute; reflexivity|].
  reflexivity.
Qed.

Example test_invalid_patient_data :
  let response := (post_patients calm invalid_patient disconnected_world).1 in
  status_code response = 422 ∧
  ∃ detail, content response = DetailErrors detail ∧
            (λ error, loc error !! 1%nat) <$> detail
            = [Some "name"; Some "age"; Some "gender"; Some "contact"].
Proof. split; [reflexivity|]. eexists. split; reflexivity. Qed.

Example test_read_patient_by_id :
  let created := post_patients calm the_other_patient disconnected_world in
  status_code created.1 = 201 ∧
  ∃ data patient_id,
    content created.1 = Json data ∧ data !! "id" = Some (PyInt patient_id) ∧
    let response := (get_patient calm patient_id created.2).1 in
    status_code response = 200 ∧
    ∃ data', content response = Json data' ∧
             data' !! "id" = Some (PyInt patient_id) ∧
             data' !! "name" = Some (PyStr "Test Patient ID") ∧
             data' !! "age" = Some (PyInt 35) ∧
             data' !! "gender" = Some (PyStr "female") ∧
             data' !! "contact" = Some (PyStr "9876543210").
Proof.
  split; [reflexivity|]. eexists _, 1. split; [vm_compute; reflexivity|].
  split; [reflexivity|]. split; [reflexivity|].
  eexists. split; [vm_compute; reflexivity|]. repeat split; reflexivity.
Qed.

Example test_patient_not_found :
  (get_patient calm 9999 disconnected_world).1
  = {| status_code := 404; content := Detail "Patient not found" |}.
Proof. reflexivity. Qed.

(** * Main results *)

Lemma test_patient_validates :
  PatientCreate.validate test_patient
  = inr (PatientCreate.Build "Test Patient" 30 MALE "1234567890").
Proof. reflexivity. Qed.

Lemma two_patients_ok : Database_ok two_patients.
Proof.
  split; cbn.
  - repeat constructor; eexists; reflexivity.
  - repeat constructor; unfold id_lt; cbn; lia.
  - repeat constructor; cbn; intros i [= <-]; lia.
Qed.

Lemma mirrored_failed env row w :
  mongo_db w = None ∨ is_Some (driver_fault env) →
  ∃ line, mirrored env row w = set_stdout (stdout w ++ [line]) w.
Proof.
  intros Hfail. unfold mirrored. destruct (mongo_db w) as [docs|].
  - destruct Hfail as [[=] | [[c msg] ->]]. eexists. reflexivity.
  - eexists. reflexivity.
Qed.

(** ** Registration *)

(** C1. For a body that passes validation and a primary write that
    succeeds, a failing mirror write (the document store never
    connected, or the driver raising at any of its calls) does not
    change the outcome: the response is 201 with the full committed
    record, the same response as under any other state of the document
    store and any other behaviour of the driver; the failure is absorbed
    in the mirror step, which prints one line and leaves the document
    store as it was. *)
Theorem mirror_failure_is_absorbed env w body patient :
  PatientCreate.validate body = inr patient →
  session_fault env = None →
  Database_ok (postgres w) →
  mongo_db w = None ∨ is_Some (driver_fault env) →
  (post_patients env body w).1 =
    {| status_code := 201;
       content := Json (patient_to_dict (new_row (postgres w) patient)) |} ∧
  (∀ env' w', session_fault env' = None → postgres w' = postgres w →
     (post_patients env' body w').1 = (post_patients env body w).1) ∧
  mongo_db (post_patients env body w).2 = mongo_db w ∧
  (∃ line, stdout (post_patients env body w).2 = stdout w ++ [line]) ∧
  (∀ r s, ∃ s', mirror r env s = (inr (), s')).
Proof.
  intros Hv Hs Hok Hfail.
  rewrite (post_patients_created _ _ _ _ Hv Hs Hok). cbn [fst snd].
  destruct (mirrored_failed env (new_row (postgres w) patient)
              (set_postgres (inserted (postgres w) patient) w) Hfail) as [line ->].
  split; [reflexivity|]. split; [|split; [|split]].
  - intros env' w' Hs' Hw'. rewrite <- Hw' in Hok |- *.
    rewrite (post_patients_created _ _ _ _ Hv Hs' Hok). reflexivity.
  - reflexivity.
  - exists line. reflexivity.
  - intros r s. destruct (mirror_total r env s) as (w' & Hrun & _). eauto.
Qed.

Lemma mirror_failure_is_absorbed_witness :
  (post_patients calm test_patient disconnected_world).1 =
    {| status_code := 201;
       content := Json (patient_to_dict
         (PatientTable.Build (Some 1) "Test Patient" 30 "male" "1234567890")) |}.
Proof.
  exact (proj1 (mirror_failure_is_absorbed calm disconnected_world test_patient _
                  test_patient_validates eq_refl empty_database_ok
                  (or_introl eq_refl))).
Defined.

(** C2. A body whose name has 2 to 100 characters, whose age is an
    integer from 1 to 149, whose gender is exactly "male", "female" or
    "other" and whose contact has 5 to 20 characters is registered:
    with the primary write going through, the response is 201 and its
    body carries the submitted name, age, gender and contact unchanged
    together with an integer id the store assigned, which no earlier row
    has; the row is the last one of the table afterwards. *)
Theorem registration_succeeds env w body :
  name_ok body → age_ok body → gender_ok body → contact_ok body →
  session_fault env = None →
  Database_ok (postgres w) →
  let id := patients_id_seq (postgres w) in
  (post_patients env body w).1 =
    {| status_code := 201;
       content := Json (list_to_map
         [ ("id", PyInt id); ("name", PyStr (Body.name body));
           ("age", PyInt (Body.age body)); ("gender", PyStr (Body.gender body));
           ("contact", PyStr (Body.contact body)) ]) |} ∧
  Forall (λ p, PatientTable.id p ≠ Some id) (patients (postgres w)) ∧
  patients (postgres (post_patients env body w).2) =
    patients (postgres w) ++
    [PatientTable.Build (Some id) (Body.name body) (Body.age body)
       (Body.gender body) (Body.contact body)].
Proof.
  intros Hn Ha Hg Hc Hs Hok id.
  destruct (PatientCreate_validate_ok body Hn Ha Hg Hc) as [patient Hv].
  rewrite (post_patients_created _ _ _ _ Hv Hs Hok). cbn [fst snd].
  rewrite mirrored_postgres.
  apply PatientCreate_validate_inr in Hv as (_ & En & Ea & Eg & Ec).
  cbn. unfold new_row, patient_to_dict. cbn. rewrite En, Ea, Eg, Ec.
  split; [reflexivity|]. split; [|reflexivity].
  apply below_seq_fresh, Hok.
Qed.

Lemma registration_succeeds_witness :
  status_code (post_patients calm test_patient connected_world).1 = 201.
Proof.
  destruct (registration_succeeds calm connected_world test_patient) as [H _].
  - unfold name_ok, len. simpl. lia.
  - unfold age_ok. simpl. lia.
  - left. reflexivity.
  - unfold contact_ok, len. simpl. lia.
  - reflexivity.
  - apply empty_database_ok.
  - rewrite H. reflexivity.
Defined.

(** C3. A body that breaks one or more of the four field constraints is
    answered 422 with a report that names a field exactly when that
    field is invalid, each field being checked on its own; the world is
    left as it was, so no record reaches either store and every listing
    of the primary store afterwards equals the listing before. *)
Theorem invalid_body_is_rejected env w body :
  ¬ (name_ok body ∧ age_ok body ∧ gender_ok body ∧ contact_ok body) →
  ∃ errors,
    post_patients env body w =
      ({| status_code := 422; content := DetailErrors errors |}, w) ∧
    (¬ name_ok body ↔ ["body"; "name"] ∈ loc <$> errors) ∧
    (¬ age_ok body ↔ ["body"; "age"] ∈ loc <$> errors) ∧
    (¬ gender_ok body ↔ ["body"; "gender"] ∈ loc <$> errors) ∧
    (¬ contact_ok body ↔ ["body"; "contact"] ∈ loc <$> errors) ∧
    (∀ env' skip limit_,
       get_patients env' skip limit_ (post_patients env body w).2
       = get_patients env' skip limit_ w).
Proof.
  intros Hbad.
  destruct (post_patients_rejected env w body Hbad)
    as (errors & Hrun & Hn & Ha & Hg & Hc).
  exists errors. rewrite Hrun. cbn [snd]. auto 10.
Qed.

Lemma invalid_body_is_rejected_witness :
  ∃ errors,
    post_patients calm invalid_patient connected_world =
      ({| status_code := 422; content := DetailErrors errors |}, connected_world) ∧
    ["body"; "name"] ∈ loc <$> errors ∧ ["body"; "age"] ∈ loc <$> errors ∧
    ["body"; "gender"] ∈ loc <$> errors ∧ ["body"; "contact"] ∈ loc <$> errors.
Proof.
  destruct (invalid_body_is_rejected calm connected_world invalid_patient)
    as (errors & Hrun & Hn & Ha & Hg & Hc & _).
  - unfold name_ok, len. simpl. lia.
  - exists errors. split; [exact Hrun|].
    split; [|split; [|split]].
    + apply Hn. unfold name_ok, len. simpl. lia.
    + apply Ha. unfold age_ok. simpl. lia.
    + apply Hg. unfold gender_ok. simpl. intros [H | [H | H]]; discriminate H.
    + apply Hc. unfold contact_ok, len. simpl. lia.
Defined.

(** C4. When the primary write fails (a fault on [db.add], on
    [db.commit] or on [db.refresh]), the handler raises at that call and
    the request ends as a server error; whatever the rest of the handler
    is, it does not run, so no mirror write is attempted: the document
    store is as before and nothing has been printed. The rest of the
    handler, mirror step first, starts only from a session whose row has
    been committed. *)
Theorem primary_failure_aborts env w body patient c msg :
  PatientCreate.validate body = inr patient →
  session_fault env = Some (c, msg) →
  (post_patients env body w).1 =
    {| status_code := 500; content := InternalServerError |} ∧
  (with_db env w (create_patient patient)).1 = inl (Exception msg) ∧
  mongo_db (post_patients env body w).2 = mongo_db w ∧
  stdout (post_patients env body w).2 = stdout w ∧
  (∀ (A : Type) (k : nat → M A), ∃ s,
     registration k patient env (fresh_session w) = (inl (Exception msg), s) ∧
     mongo_db (world s) = mongo_db w ∧ stdout (world s) = stdout w) ∧
  (∀ (A : Type) (k : nat → M A) env',
     session_fault env' = None → Database_ok (postgres w) →
     registration k patient env' (fresh_session w) =
     k 0%nat env'
       {| world := set_postgres (inserted (postgres w) patient) w;
          objects := [new_row (postgres w) patient];
          new := [] |}).
Proof.
  intros Hv Hs.
  rewrite (post_patients_aborted _ _ _ _ _ _ Hv Hs),
    (create_patient_aborts _ _ _ _ _ Hs). cbn [fst snd].
  repeat split.
  - intros A k. destruct (registration_aborts k env w patient c msg Hs) as (s & Hrun & Hw).
    exists s. rewrite Hrun, Hw. auto.
  - intros A k env' Hs' Hok. apply registration_commits; assumption.
Qed.

Lemma primary_failure_aborts_witness :
  (post_patients commit_fails test_patient connected_world).1 =
    {| status_code := 500; content := InternalServerError |}.
Proof.
  exact (proj1 (primary_failure_aborts commit_fails connected_world test_patient _
                  commit "connection lost" test_patient_validates eq_refl)).
Defined.

(** C7. When a registration succeeds and its mirror write succeeds, the
    document appended to the collection has exactly the keys id, name,
    age, gender, contact and created_at: the first five with the values
    of the committed row, which is the record of the response and the
    last row of the table (the id the sequence gave, and the name, age,
    gender and contact of the request body), and created_at with the
    reading of the clock at the mirror step. No request served
    afterwards changes a stored document: it stays at its position,
    created_at included. *)
Theorem mirrored_document env w body patient docs :
  PatientCreate.validate body = inr patient →
  session_fault env = None →
  Database_ok (postgres w) →
  mongo_db w = Some docs →
  driver_fault env = None →
  let record := new_row (postgres w) patient in
  ∃ doc,
    mongo_db (post_patients env body w).2 = Some (docs ++ [doc]) ∧
    (post_patients env body w).1 =
      {| status_code := 201; content := Json (patient_to_dict record) |} ∧
    last (patients (postgres (post_patients env body w).2)) = Some record ∧
    record = PatientTable.Build (Some (patients_id_seq (postgres w)))
               (Body.name body) (Body.age body) (Body.gender body)
               (Body.contact body) ∧
    dom doc = {[ "id"; "name"; "age"; "gender"; "contact"; "created_at" ]} ∧
    (∀ key, key ≠ "created_at" → doc !! key = patient_to_dict record !! key) ∧
    doc !! "id" = Some (PyInt (patients_id_seq (postgres w))) ∧
    doc !! "name" = Some (PyStr (Body.name body)) ∧
    doc !! "age" = Some (PyInt (Body.age body)) ∧
    doc !! "gender" = Some (PyStr (Body.gender body)) ∧
    doc !! "contact" = Some (PyStr (Body.contact body)) ∧
    doc !! "created_at" = Some (PyStr (now_isoformat env)) ∧
    (∀ env' rq w' stored i d,
       mongo_db w' = Some stored → stored !! i = Some d →
       ∃ stored', mongo_db (serve env' rq w').2 = Some stored' ∧
                  stored' !! i = Some d).
Proof.
  intros Hv Hs Hok Hm Hf record.
  exists (<["created_at" := PyStr (now_isoformat env)]> (patient_to_dict record)).
  rewrite (post_patients_created _ _ _ _ Hv Hs Hok). cbn [fst snd].
  rewrite mirrored_postgres. unfold mirrored. cbn [mongo_db set_postgres].
  rewrite Hm, Hf. cbn [mongo_db set_mongo_db postgres set_postgres patients inserted].
  split; [reflexivity|]. split; [reflexivity|].
  split; [apply last_snoc|].
  assert (Hrecord : record = PatientTable.Build (Some (patients_id_seq (postgres w)))
                               (Body.name body) (Body.age body) (Body.gender body)
                               (Body.contact body)).
  { destruct (PatientCreate_validate_inr body patient Hv) as (_ & En & Ea & Eg & Ec).
    unfold record, new_row. rewrite En, Ea, Eg, Ec. reflexivity. }
  split; [exact Hrecord|].
  split; [rewrite dom_insert_L, patient_to_dict_dom; set_solver|].
  split; [intros key Hkey; apply lookup_insert_ne; congruence|].
  rewrite Hrecord.
  split; [reflexivity|]. split; [reflexivity|]. split; [reflexivity|].
  split; [reflexivity|]. split; [reflexivity|].
  split; [apply lookup_insert_eq|].
  intros env' rq w' stored i d Hstored Hi.
  pose proof (serve_extends env' rq w') as Hext. unfold extends in Hext.
  rewrite Hstored in Hext. destruct Hext as [more ->].
  eexists. split; [reflexivity|]. apply lookup_app_l_Some, Hi.
Qed.

Lemma mirrored_document_witness :
  ∃ doc,
    mongo_db (post_patients calm test_patient connected_world).2 = Some [doc] ∧
    doc !! "id" = Some (PyInt 1) ∧
    doc !! "name" = Some (PyStr "Test Patient") ∧
    doc !! "age" = Some (PyInt 30) ∧
    doc !! "gender" = Some (PyStr "male") ∧
    doc !! "contact" = Some (PyStr "1234567890") ∧
    doc !! "created_at" = Some (PyStr "2024-05-01T10:00:00").
Proof.
  destruct (mirrored_document calm connected_world test_patient _ []
              test_patient_validates eq_refl empty_database_ok eq_refl eq_refl)
    as (doc & Hdoc & _ & _ & _ & _ & _ & Hi & Hn & Ha & Hg & Hc & Hcreated & _).
  exists doc. repeat split; assumption.
Defined.

(** ** Listing and lookup *)

(** C5. On a store of more rows than [limit], the listing with [skip]
    and [limit] (both counts below 2^63) answers 200 with the rows that
    follow the first [skip] ones in the engine's scan of the table, at
    most [limit] of them, each as the record of its five fields. The
    query names no order: the scan holds the rows of the table, each
    once, in the engine's order, which is the order of insertion, keys
    ascending, on an engine that ranks all rows alike. Absent parameters
    stand for 0 and 100; the first page has exactly [limit] records,
    and, the scan being the same for both requests, the page asked for
    with [skip = limit] continues the scan where the first page ends and
    shares no record with it. *)
Theorem listing_is_paginated env w skip limit_ :
  Database_ok (postgres w) →
  0 ≤ skip < 2 ^ 63 → 0 ≤ limit_ < 2 ^ 63 →
  limit_ < Z.of_nat (length (patients (postgres w))) →
  let scanned := scan_rows (postgres w) (patients (postgres w)) in
  let page o l := take (Z.to_nat l) (drop (Z.to_nat o) scanned) in
  let listed o l :=
    ({| status_code := 200; content := JsonList (patient_to_dict <$> page o l) |}, w) in
  scanned ≡ₚ patients (postgres w) ∧
  ((∀ p q, scan_rank (postgres w) p = scan_rank (postgres w) q) →
   scanned = patients (postgres w) ∧ StronglySorted id_lt (page skip limit_)) ∧
  get_patients env (Some skip) (Some limit_) w = listed skip limit_ ∧
  Forall2 is_record_of (page skip limit_)
    (records (get_patients env (Some skip) (Some limit_) w).1) ∧
  Z.of_nat (length (page skip limit_)) ≤ limit_ ∧
  get_patients env None None w = get_patients env (Some 0) (Some 100) w ∧
  get_patients env (Some 0) (Some limit_) w = listed 0 limit_ ∧
  Z.of_nat (length (page 0 limit_)) = limit_ ∧
  get_patients env (Some limit_) (Some limit_) w = listed limit_ limit_ ∧
  page 0 limit_ ++ page limit_ limit_
    = take (Z.to_nat limit_ + Z.to_nat limit_) scanned ∧
  (∀ d, d ∈ patient_to_dict <$> page 0 limit_ →
        d ∉ patient_to_dict <$> page limit_ limit_).
Proof.
  intros [Hvalid Hsorted _] Hskip Hlimit Hmore scanned page listed.
  assert (Hperm : scanned ≡ₚ patients (postgres w)) by apply scan_rows_Permutation.
  assert (Hlisted : ∀ o l, 0 ≤ o < 2 ^ 63 → 0 ≤ l < 2 ^ 63 →
            get_patients env (Some o) (Some l) w = listed o l).
  { intros o l Ho Hl. unfold get_patients, listed, page. cbn [default].
    rewrite read_patients_served, (select_window _ _ _ Ho Hl). unfold respond.
    rewrite Patient_validate_rows; [reflexivity|].
    apply Forall_take, Forall_drop, Forall_scan_rows, Hvalid. }
  split; [exact Hperm|].
  split.
  { intros Hflat.
    assert (Hsame : scanned = patients (postgres w))
      by apply (scan_rows_insertion_order _ _ Hflat).
    split; [exact Hsame|]. unfold page. rewrite Hsame.
    rewrite <- (take_drop (Z.to_nat skip) (patients (postgres w))) in Hsorted.
    apply StronglySorted_app_1_r in Hsorted.
    rewrite <- (take_drop (Z.to_nat limit_) (drop _ _)) in Hsorted.
    apply StronglySorted_app_1_l in Hsorted. exact Hsorted. }
  split; [apply Hlisted; lia|].
  split.
  { rewrite Hlisted by lia. cbn [fst records status_code content].
    apply Forall2_fmap_r, Forall_Forall2_diag, Forall_forall.
    intros p _. apply patient_to_dict_is_record_of. }
  split; [unfold page; rewrite length_take; lia|].
  assert (Hfirst : page 0 limit_ = take (Z.to_nat limit_) scanned) by reflexivity.
  rewrite Hfirst.
  split; [reflexivity|].
  split; [apply Hlisted; lia|].
  split.
  { rewrite length_take. unfold scanned. rewrite length_scan_rows. lia. }
  split; [apply Hlisted; lia|].
  split; [apply take_take_drop|].
  intros d. apply pages_disjoint. unfold scanned.
  rewrite scan_rows_Permutation. apply records_NoDup; assumption.
Qed.

Lemma listing_is_paginated_witness :
  get_patients calm (Some 0) (Some 1) clinic =
    ({| status_code := 200;
        content := JsonList
          [patient_to_dict
             (PatientTable.Build (Some 1) "Test Patient" 30 "male" "1234567890")] |},
     clinic).
Proof.
  refine (proj1 (proj2 (proj2
            (listing_is_paginated calm clinic 0 1 two_patients_ok _ _ _))));
    simpl; lia.
Defined.

(** The listing is not ordered by the code. On an engine that returns
    the newer row first, the first page of a two-row table is the second
    row inserted, not the first; the page asked for with [skip = 1] on
    an engine that scans as inserted is that same row, though both
    stores hold the same two rows; and a [skip] of 2^63 is answered with
    a server error, not with records. *)
Lemma listing_is_paginated_counterexample :
  Database_ok (postgres newest_first_clinic) ∧
  patients (postgres newest_first_clinic) = patients (postgres clinic) ∧
  (get_patients calm (Some 0) (Some 1) newest_first_clinic).1
    ≠ {| status_code := 200;
         content := JsonList
           (patient_to_dict <$> take 1 (patients (postgres newest_first_clinic))) |} ∧
  records (get_patients calm (Some 0) (Some 1) newest_first_clinic).1
    = [patient_to_dict
         (PatientTable.Build (Some 2) "Test Patient ID" 35 "female" "9876543210")] ∧
  records (get_patients calm (Some 1) (Some 1) clinic).1
    = [patient_to_dict
         (PatientTable.Build (Some 2) "Test Patient ID" 35 "female" "9876543210")] ∧
  (get_patients calm (Some (2 ^ 63)) (Some 1) clinic).1
    = {| status_code := 500; content := InternalServerError |}.
Proof.
  split; [destruct two_patients_ok; split; assumption|]. split; [reflexivity|].
  assert (Hpage :
    get_patients calm (Some 0) (Some 1) newest_first_clinic =
    ({| status_code := 200;
        content := JsonList [patient_to_dict
          (PatientTable.Build (Some 2) "Test Patient ID" 35 "female" "9876543210")] |},
     newest_first_clinic)).
  { unfold get_patients. cbn [default].
    rewrite read_patients_served, select_window by (simpl; lia).
    unfold respond. rewrite Patient_validate_rows; [reflexivity|].
    repeat constructor; eexists; reflexivity. }
  split; [|split; [|split]].
  - rewrite Hpage. cbn [fst]. intros Heq.
    apply (f_equal (λ r, (λ d : Dict, d !! "id") <$> records r)) in Heq.
    vm_compute in Heq. discriminate Heq.
  - rewrite Hpage. reflexivity.
  - unfold get_patients. cbn [default].
    rewrite read_patients_served, select_window by (simpl; lia).
    unfold respond. rewrite Patient_validate_rows; [reflexivity|].
    repeat constructor; eexists; reflexivity.
  - unfold get_patients. cbn [default].
    rewrite read_patients_served, select_too_big by (simpl; lia). reflexivity.
Qed.

(** C6. Looking up an id no row has raises the [HTTPException] that
    becomes the 404 response with detail "Patient not found"; looking up
    the id of a row answers 200 with a record of exactly five fields:
    the id asked for and the name, age, gender and contact stored in
    that row. The not-found response is neither the success response
    nor the response to a failure. *)
Theorem lookup_finds_or_404 env w patient_id :
  Database_ok (postgres w) →
  ((∀ p, p ∈ patients (postgres w) → PatientTable.id p ≠ Some patient_id) →
   with_db env w (read_patient patient_id)
     = (inl (HTTPException 404 "Patient not found"), w) ∧
   get_patient env patient_id w
     = ({| status_code := 404; content := Detail "Patient not found" |}, w)) ∧
  (∀ p, p ∈ patients (postgres w) → PatientTable.id p = Some patient_id →
   get_patient env patient_id w
     = ({| status_code := 200; content := Json (patient_to_dict p) |}, w) ∧
   dom (patient_to_dict p) = {[ "id"; "name"; "age"; "gender"; "contact" ]} ∧
   patient_to_dict p !! "id" = Some (PyInt patient_id) ∧
   patient_to_dict p !! "name" = Some (PyStr (PatientTable.name p)) ∧
   patient_to_dict p !! "age" = Some (PyInt (PatientTable.age p)) ∧
   patient_to_dict p !! "gender" = Some (PyStr (PatientTable.gender p)) ∧
   patient_to_dict p !! "contact" = Some (PyStr (PatientTable.contact p))) ∧
  (∀ msg d,
     let model := λ d, Json <$> Patient.validate d in
     let not_found := respond 200 model (inl (HTTPException 404 "Patient not found")) in
     not_found ≠ respond 200 model (inl (Exception msg)) ∧
     not_found ≠ respond 200 model (inr d)).
Proof.
  intros [Hvalid Hsorted _]. split; [|split].
  - intros Hnone. unfold get_patient. rewrite read_patient_served.
    rewrite where_rows_miss; [split; reflexivity|].
    apply Forall_forall. exact Hnone.
  - intros p Hp Hid. unfold get_patient. rewrite read_patient_served.
    rewrite (head_scan_where_unique _ _ p patient_id Hsorted Hp Hid). unfold respond.
    rewrite Forall_forall in Hvalid. rewrite (Patient_validate_row p (Hvalid p Hp)).
    split; [reflexivity|]. split; [apply patient_to_dict_dom|].
    split; [rewrite patient_to_dict_id, Hid; reflexivity|].
    repeat split.
  - intros msg d model not_found. unfold not_found, model, respond. split.
    + discriminate.
    + destruct (Patient.validate d); discriminate.
Qed.

Lemma lookup_finds_or_404_witness :
  get_patient calm 9999 connected_world
    = ({| status_code := 404; content := Detail "Patient not found" |},
       connected_world) ∧
  ∃ data,
    get_patient calm 2 clinic
      = ({| status_code := 200; content := Json data |}, clinic) ∧
    data !! "id" = Some (PyInt 2) ∧
    data !! "name" = Some (PyStr "Test Patient ID") ∧
    data !! "age" = Some (PyInt 35) ∧
    data !! "gender" = Some (PyStr "female") ∧
    data !! "contact" = Some (PyStr "9876543210").
Proof.
  split.
  - refine (proj2 (proj1 (lookup_finds_or_404 calm connected_world 9999
                            empty_database_ok) _)).
    intros p Hp. inv Hp.
  - destruct (proj1 (proj2 (lookup_finds_or_404 calm clinic 2 two_patients_ok))
                (PatientTable.Build (Some 2) "Test Patient ID" 35 "female"
                   "9876543210"))
      as (Hr & _ & Hi & Hn & Ha & Hg & Hc).
    + cbn. apply elem_of_cons. right. apply elem_of_cons. left. reflexivity.
    + reflexivity.
    + eexists. split; [exact Hr|]. repeat split; assumption.
Defined.

(** C8. Two lookups of the same id in succession, with no write in
    between, give the same response, whatever the store holds and
    whatever the surroundings do during either request. *)
Theorem lookup_is_idempotent env1 env2 w patient_id :
  (get_patient env2 patient_id (get_patient env1 patient_id w).2).1
  = (get_patient env1 patient_id w).1.
Proof.
  rewrite get_patient_world. unfold get_patient.
  rewrite !read_patient_served. reflexivity.
Qed.

(** C9. The listing and the lookup leave the world as it was, for every
    input and every state: the relational store keeps its rows, and the
    document store is not touched, neither written nor consulted, so the
    response is the same whatever the document store holds and whatever
    its driver would do. *)
Theorem reads_leave_stores_unchanged env w skip limit_ patient_id :
  (get_patients env skip limit_ w).2 = w ∧
  (get_patient env patient_id w).2 = w ∧
  (∀ env' m,
     (get_patients env' skip limit_ (set_mongo_db m w)).1
       = (get_patients env skip limit_ w).1 ∧
     (get_patient env' patient_id (set_mongo_db m w)).1
       = (get_patient env patient_id w).1).
Proof.
  split; [apply get_patients_world|]. split; [apply get_patient_world|].
  intros env' m. unfold get_patients, get_patient.
  rewrite !read_patients_served, !read_patient_served. split; reflexivity.
Qed.

(** C10. The listing checks no range on [skip] and [limit]: for every
    pair of integers, negative ones included, the handler runs the query
    with exactly these two values as its OFFSET and LIMIT and answers
    with what the store makes of them; the response is never the 422 of
    a validation error, and for a negative value it is the engine's own
    answer. *)
Theorem listing_forwards_its_parameters env w skip limit_ :
  let forwarded :=
    {| whereclause := None;
       offset_clause := Some skip;
       limit_clause := Some limit_ |} in
  with_db env w (read_patients skip limit_) =
    (match select (postgres w) forwarded with
     | inr rows => inr (patient_to_dict <$> rows)
     | inl e => inl e
     end, w) ∧
  status_code (get_patients env (Some skip) (Some limit_) w).1 ≠ 422 ∧
  (skip < 0 ∨ limit_ < 0 →
   select (postgres w) forwarded =
   match negative_window (postgres w) (Some skip) (Some limit_)
           (patients (postgres w)) with
   | inl msg => inl (Exception msg)
   | inr rows => inr rows
   end).
Proof.
  intros forwarded. subst forwarded. split; [apply read_patients_served|]. split.
  - unfold get_patients. cbn [default]. rewrite read_patients_served.
    cbn [fst]. unfold respond.
    assert (Herr : ∀ e, select (postgres w)
                     {| whereclause := None; offset_clause := Some skip;
                        limit_clause := Some limit_ |} = inl e →
                   ∃ msg, e = Exception msg).
    { unfold select, window_rows. cbn. intros e.
      destruct (_ || _).
      - destruct (negative_window _ _ _ _); intros H; inv H. eauto.
      - destruct (_ || _); intros H; inv H. eauto. }
    destruct (select (postgres w) _) as [e | rows].
    + destruct (Herr e eq_refl) as [msg ->]. cbn. lia.
    + destruct (JsonList <$> _); cbn; lia.
  - apply select_negative.
Qed.

Lemma listing_forwards_its_parameters_witness :
  status_code (get_patients calm (Some (-1)) (Some (-5)) clinic).1 ≠ 422 ∧
  select two_patients
    {| whereclause := None; offset_clause := Some (-1); limit_clause := Some (-5) |}
  = inl (Exception "OFFSET and LIMIT must not be negative").
Proof.
  pose proof (listing_forwards_its_parameters calm clinic (-1) (-5))
    as (_ & Hstatus & Hneg).
  split; [exact Hstatus|]. apply Hneg. lia.
Defined.

(** * Further properties *)

(** ** Requests one after the other *)

Lemma get_patient_found env w p i :
  Database_ok (postgres w) →
  p ∈ patients (postgres w) → PatientTable.id p = Some i →
  get_patient env i w =
  ({| status_code := 200; content := Json (patient_to_dict p) |}, w).
Proof.
  intros [Hvalid Hsorted _] Hp Hi. unfold get_patient.
  rewrite read_patient_served, (head_scan_where_unique _ _ p i Hsorted Hp Hi).
  unfold respond. rewrite Forall_forall in Hvalid.
  rewrite (Patient_validate_row p (Hvalid p Hp)). reflexivity.
Qed.

Lemma get_patients_window env w skip limit_ :
  Database_ok (postgres w) → 0 ≤ skip < 2 ^ 63 → 0 ≤ limit_ < 2 ^ 63 →
  get_patients env (Some skip) (Some limit_) w =
  ({| status_code := 200;
      content := JsonList (patient_to_dict <$>
                   take (Z.to_nat limit_)
                     (drop (Z.to_nat skip)
                        (scan_rows (postgres w) (patients (postgres w))))) |},
   w).
Proof.
  intros [Hvalid _ _] Hs Hl. unfold get_patients. cbn [default].
  rewrite read_patients_served, (select_window _ _ _ Hs Hl). unfold respond.
  rewrite Patient_validate_rows; [reflexivity|].
  apply Forall_take, Forall_drop, Forall_scan_rows, Hvalid.
Qed.

(** A listing whose limit is not below the number of rows is the whole
    scan. *)
Lemma get_patients_all env w limit_ :
  Database_ok (postgres w) →
  Z.of_nat (length (patients (postgres w))) ≤ limit_ < 2 ^ 63 →
  records (get_patients env (Some 0) (Some limit_) w).1
  = patient_to_dict <$> scan_rows (postgres w) (patients (postgres w)).
Proof.
  intros Hok Hlimit. rewrite get_patients_window by (assumption || lia).
  cbn [fst records status_code content].
  change (Z.to_nat 0) with 0%nat. rewrite drop_0.
  rewrite take_ge by (rewrite length_scan_rows; lia). reflexivity.
Qed.

Lemma scan_rows_inserted d patient rows :
  scan_rows (inserted d patient) rows = scan_rows d rows.
Proof. reflexivity. Qed.

Lemma created_world env w body patient :
  PatientCreate.validate body = inr patient →
  session_fault env = None →
  Database_ok (postgres w) →
  (post_patients env body w).1 =
    {| status_code := 201;
       content := Json (patient_to_dict (new_row (postgres w) patient)) |} ∧
  postgres (post_patients env body w).2 = inserted (postgres w) patient ∧
  Database_ok (postgres (post_patients env body w).2).
Proof.
  intros Hv Hs Hok. rewrite (post_patients_created _ _ _ _ Hv Hs Hok). cbn [fst snd].
  rewrite mirrored_postgres. cbn [postgres set_postgres].
  split; [reflexivity|]. split; [reflexivity|]. apply (inserted_ok _ _ _ Hv Hok).
Qed.

Lemma new_row_inserted d patient : new_row d patient ∈ patients (inserted d patient).
Proof. cbn. apply elem_of_app. right. apply list_elem_of_singleton. reflexivity. Qed.

(** X1. A registered patient can be read back at once: the lookup of the
    id the 201 response carries answers 200 with the very body of that
    response. *)
Theorem registered_patient_is_found env env' w body patient :
  PatientCreate.validate body = inr patient →
  session_fault env = None →
  Database_ok (postgres w) →
  ∃ data id,
    (post_patients env body w).1 = {| status_code := 201; content := Json data |} ∧
    data !! "id" = Some (PyInt id) ∧
    get_patient env' id (post_patients env body w).2 =
      ({| status_code := 200; content := Json data |}, (post_patients env body w).2).
Proof.
  intros Hv Hs Hok.
  destruct (created_world env w body patient Hv Hs Hok) as (Hr & Hw & Hok').
  exists (patient_to_dict (new_row (postgres w) patient)), (patients_id_seq (postgres w)).
  split; [exact Hr|]. split; [reflexivity|].
  apply (get_patient_found _ _ _ _ Hok'); [|reflexivity].
  rewrite Hw. apply new_row_inserted.
Qed.

Lemma registered_patient_is_found_witness :
  ∃ data id,
    (post_patients calm test_patient connected_world).1
      = {| status_code := 201; content := Json data |} ∧
    data !! "id" = Some (PyInt id) ∧
    get_patient calm id (post_patients calm test_patient connected_world).2
      = ({| status_code := 200; content := Json data |},
         (post_patients calm test_patient connected_world).2).
Proof.
  exact (registered_patient_is_found calm calm connected_world test_patient _
           test_patient_validates eq_refl empty_database_ok).
Defined.

(** X2. After a registration the listing holds the records it held
    before and the new one: for a limit that covers the table, the
    records listed afterwards are, up to their order, those listed
    before and the body of the 201 response. On an engine that scans
    the table as inserted the new record comes last. *)
Theorem registered_patient_is_listed env env' w body patient limit_ :
  PatientCreate.validate body = inr patient →
  session_fault env = None →
  Database_ok (postgres w) →
  Z.of_nat (length (patients (postgres w))) < limit_ < 2 ^ 63 →
  ∃ data,
    (post_patients env body w).1 = {| status_code := 201; content := Json data |} ∧
    records (get_patients env' (Some 0) (Some limit_) w).1
      ≡ₚ patient_to_dict <$> patients (postgres w) ∧
    records (get_patients env' (Some 0) (Some limit_) (post_patients env body w).2).1
      ≡ₚ records (get_patients env' (Some 0) (Some limit_) w).1 ++ [data] ∧
    ((∀ p q, scan_rank (postgres w) p = scan_rank (postgres w) q) →
     records (get_patients env' (Some 0) (Some limit_) (post_patients env body w).2).1
       = records (get_patients env' (Some 0) (Some limit_) w).1 ++ [data]).
Proof.
  intros Hv Hs Hok Hlimit.
  destruct (created_world env w body patient Hv Hs Hok) as (Hr & Hw & Hok').
  exists (patient_to_dict (new_row (postgres w) patient)).
  split; [exact Hr|].
  rewrite (get_patients_all env' w) by (assumption || lia).
  rewrite (get_patients_all env') by
    (try assumption; rewrite Hw; cbn [patients inserted];
     rewrite length_app; cbn [length]; lia).
  rewrite Hw, scan_rows_inserted. cbn [patients inserted].
  split; [rewrite scan_rows_Permutation; reflexivity|].
  split.
  - rewrite !scan_rows_Permutation, fmap_app. reflexivity.
  - intros Hflat. rewrite !(scan_rows_insertion_order _ _ Hflat), fmap_app.
    reflexivity.
Qed.

Lemma registered_patient_is_listed_witness :
  ∃ data,
    (post_patients calm the_other_patient clinic).1
      = {| status_code := 201; content := Json data |} ∧
    records (get_patients calm (Some 0) (Some 10) clinic).1
      ≡ₚ patient_to_dict <$> patients two_patients ∧
    records (get_patients calm (Some 0) (Some 10)
               (post_patients calm the_other_patient clinic).2).1
      ≡ₚ records (get_patients calm (Some 0) (Some 10) clinic).1 ++ [data] ∧
    ((∀ p q, scan_rank two_patients p = scan_rank two_patients q) →
     records (get_patients calm (Some 0) (Some 10)
                (post_patients calm the_other_patient clinic).2).1
       = records (get_patients calm (Some 0) (Some 10) clinic).1 ++ [data]).
Proof.
  refine (registered_patient_is_listed calm calm clinic the_other_patient
            (PatientCreate.Build "Test Patient ID" 35 FEMALE "9876543210") 10
            eq_refl eq_refl two_patients_ok _).
  simpl. lia.
Defined.

(** X3. Two registrations served one after the other get consecutive
    ids: the second response carries the id of the first plus one, so
    the two records never share an id. *)
Theorem successive_registrations_get_successive_ids
  env1 env2 w body1 body2 patient1 patient2 :
  PatientCreate.validate body1 = inr patient1 →
  PatientCreate.validate body2 = inr patient2 →
  session_fault env1 = None → session_fault env2 = None →
  Database_ok (postgres w) →
  ∃ data1 data2 id,
    (post_patients env1 body1 w).1
      = {| status_code := 201; content := Json data1 |} ∧
    (post_patients env2 body2 (post_patients env1 body1 w).2).1
      = {| status_code := 201; content := Json data2 |} ∧
    data1 !! "id" = Some (PyInt id) ∧
    data2 !! "id" = Some (PyInt (id + 1)).
Proof.
  intros Hv1 Hv2 Hs1 Hs2 Hok.
  destruct (created_world env1 w body1 patient1 Hv1 Hs1 Hok) as (Hr1 & Hw1 & Hok1).
  destruct (created_world env2 _ body2 patient2 Hv2 Hs2 Hok1) as (Hr2 & _ & _).
  eexists _, _, (patients_id_seq (postgres w)).
  split; [exact Hr1|]. split; [exact Hr2|]. split; [reflexivity|].
  rewrite Hw1. reflexivity.
Qed.

Lemma successive_registrations_get_successive_ids_witness :
  ∃ data1 data2 id,
    (post_patients calm test_patient connected_world).1
      = {| status_code := 201; content := Json data1 |} ∧
    (post_patients calm the_other_patient
       (post_patients calm test_patient connected_world).2).1
      = {| status_code := 201; content := Json data2 |} ∧
    data1 !! "id" = Some (PyInt id) ∧
    data2 !! "id" = Some (PyInt (id + 1)).
Proof.
  exact (successive_registrations_get_successive_ids calm calm connected_world
           test_patient the_other_patient _
           (PatientCreate.Build "Test Patient ID" 35 FEMALE "9876543210")
           test_patient_validates eq_refl eq_refl eq_refl empty_database_ok).
Defined.

(** ** Faults on the session *)

Lemma set_postgres_same w : set_postgres (postgres w) w = w.
Proof. destruct w; reflexivity. Qed.

(** X4. A registration whose [db.add] or [db.commit] raises writes no
    row: the response is the server error, and the table, the documents
    and the output are as they were. Where the call raised before the
    INSERT ran the whole world is as it was; where [db.commit] raised
    after it, the sequence of the primary key is one ahead, the value
    the rolled-back row had taken. *)
Theorem failed_write_keeps_the_rows env w body patient c msg :
  PatientCreate.validate body = inr patient →
  session_fault env = Some (c, msg) →
  c ≠ refresh →
  let failed := post_patients env body w in
  failed.1 = {| status_code := 500; content := InternalServerError |} ∧
  patients (postgres failed.2) = patients (postgres w) ∧
  mongo_db failed.2 = mongo_db w ∧
  stdout failed.2 = stdout w ∧
  patients_id_seq (postgres failed.2)
    = (if decide (c = commit) then patients_id_seq (postgres w) + 1
       else patients_id_seq (postgres w)) ∧
  (c ≠ commit → failed.2 = w).
Proof.
  intros Hv Hs Hc failed. unfold failed.
  rewrite (post_patients_aborted _ _ _ _ _ _ Hv Hs). cbn [fst snd].
  destruct c; try contradiction; cbn [aborted];
    rewrite ?set_postgres_same; repeat split; try reflexivity;
    intros Hcommit; contradiction.
Qed.

Lemma failed_write_keeps_the_rows_witness :
  (post_patients commit_fails test_patient clinic).1
    = {| status_code := 500; content := InternalServerError |} ∧
  patients (postgres (post_patients commit_fails test_patient clinic).2)
    = patients two_patients ∧
  patients_id_seq (postgres (post_patients commit_fails test_patient clinic).2) = 4.
Proof.
  destruct (failed_write_keeps_the_rows commit_fails clinic test_patient _
              commit "connection lost" test_patient_validates eq_refl)
    as (Hr & Hp & _ & _ & Hseq & _); [discriminate|].
  split; [exact Hr|]. split; [exact Hp|]. exact Hseq.
Defined.

(** X5. A registration whose [db.refresh] raises answers the server
    error although the row is committed: the row is the last of the
    table under the next id of the sequence, no mirror write was made
    and nothing printed, and a lookup of that id afterwards answers 200
    with the record the failed request never returned. *)
Theorem failed_refresh_keeps_the_row env env' w body patient msg :
  PatientCreate.validate body = inr patient →
  session_fault env = Some (refresh, msg) →
  Database_ok (postgres w) →
  let failed := post_patients env body w in
  let row := new_row (postgres w) patient in
  failed.1 = {| status_code := 500; content := InternalServerError |} ∧
  patients (postgres failed.2) = patients (postgres w) ++ [row] ∧
  mongo_db failed.2 = mongo_db w ∧
  stdout failed.2 = stdout w ∧
  get_patient env' (patients_id_seq (postgres w)) failed.2 =
    ({| status_code := 200; content := Json (patient_to_dict row) |}, failed.2).
Proof.
  intros Hv Hs Hok failed row. unfold failed.
  rewrite (post_patients_aborted _ _ _ _ _ _ Hv Hs).
  cbn [aborted fst snd].
  repeat split.
  apply get_patient_found; [|apply new_row_inserted|reflexivity].
  apply (inserted_ok _ _ _ Hv Hok).
Qed.

Lemma failed_refresh_keeps_the_row_witness :
  (get_patient calm 1
     (post_patients (refresh_fails "timeout") test_patient connected_world).2).1 =
  {| status_code := 200;
     content := Json (patient_to_dict
       (PatientTable.Build (Some 1) "Test Patient" 30 "male" "1234567890")) |}.
Proof.
  destruct (failed_refresh_keeps_the_row (refresh_fails "timeout") calm
              connected_world test_patient _ "timeout"
              test_patient_validates eq_refl empty_database_ok)
    as (_ & _ & _ & _ & Hget).
  exact (f_equal fst Hget).
Defined.

(** ** What the stores hold in every state the process reaches *)

Lemma sorted_lookup_lt {A : Type} (R : relation A) (l : list A) i j x y :
  StronglySorted R l → l !! i = Some x → l !! j = Some y → (i < j)%nat → R x y.
Proof.
  intros Hsorted. revert i j.
  induction Hsorted as [|a l _ IH Ha]; intros i j Hi Hj Hlt; [inv Hi|].
  destruct j as [|j]; [lia|]. cbn in Hj. destruct i as [|i].
  - cbn in Hi. injection Hi as <-. rewrite Forall_forall in Ha.
    apply Ha. apply list_elem_of_lookup. eauto.
  - cbn in Hi. apply (IH i j Hi Hj). lia.
Qed.

Lemma sorted_lookup_inj {A : Type} (R : relation A) (l : list A) i j x y :
  StronglySorted R l → (∀ a b, R a b → a ≠ b) →
  l !! i = Some x → l !! j = Some y → x = y → i = j.
Proof.
  intros Hsorted Hirr Hi Hj Heq.
  destruct (Nat.lt_trichotomy i j) as [Hlt | [-> | Hlt]]; [|reflexivity|].
  - destruct (Hirr x y (sorted_lookup_lt R l i j x y Hsorted Hi Hj Hlt) Heq).
  - destruct (Hirr y x (sorted_lookup_lt R l j i y x Hsorted Hj Hi Hlt) (eq_sym Heq)).
Qed.

Lemma row_valid_fields p :
  row_valid p →
  ∃ i, PatientTable.id p = Some i ∧
       2 ≤ len (PatientTable.name p) ≤ 100 ∧
       1 ≤ PatientTable.age p ≤ 149 ∧
       (PatientTable.gender p = "male" ∨ PatientTable.gender p = "female"
        ∨ PatientTable.gender p = "other") ∧
       5 ≤ len (PatientTable.contact p) ≤ 20.
Proof.
  intros [[i Hi] [g Hg]]. exists i. split; [exact Hi|].
  apply PatientBase_validate_inr in Hg as (g' & _ & Hn & Ha & Hgen & Hc).
  apply str_field_inr in Hn, Hc. apply int_field_inr in Ha.
  rewrite <- of_value_Some, Hgen. repeat split; eauto; lia.
Qed.

(** X6. Whatever requests the process has served since it started on an
    empty table, every row of the table is a complete patient record (an
    id below the sequence, a name of 2 to 100 characters, an age from 1
    to 149, one of the three genders, a contact of 5 to 20 characters),
    and the ids ascend along the table, so no two rows share one. *)
Theorem persisted_rows_are_valid_and_unique w :
  reachable w →
  let rows := patients (postgres w) in
  (∀ p, p ∈ rows →
     ∃ i, PatientTable.id p = Some i ∧ i < patients_id_seq (postgres w) ∧
          2 ≤ len (PatientTable.name p) ≤ 100 ∧
          1 ≤ PatientTable.age p ≤ 149 ∧
          (PatientTable.gender p = "male" ∨ PatientTable.gender p = "female"
           ∨ PatientTable.gender p = "other") ∧
          5 ≤ len (PatientTable.contact p) ≤ 20) ∧
  (∀ i j p q, rows !! i = Some p → rows !! j = Some q → (i < j)%nat → id_lt p q) ∧
  (∀ i j p q, rows !! i = Some p → rows !! j = Some q →
     PatientTable.id p = PatientTable.id q → i = j).
Proof.
  intros Hreach rows. destruct (reachable_ok w Hreach) as [Hvalid Hsorted Hbelow].
  fold rows in Hvalid, Hsorted, Hbelow.
  rewrite Forall_forall in Hvalid, Hbelow. split; [|split].
  - intros p Hp. destruct (row_valid_fields p (Hvalid p Hp)) as (i & Hi & Hrest).
    exists i. split; [exact Hi|]. split; [apply (Hbelow p Hp i Hi) | exact Hrest].
  - intros i j p q Hi Hj Hlt. apply (sorted_lookup_lt id_lt rows i j); assumption.
  - intros i j p q Hi Hj Hid.
    destruct (Nat.lt_trichotomy i j) as [Hlt | [-> | Hlt]]; [|reflexivity|].
    + pose proof (sorted_lookup_lt id_lt rows i j p q Hsorted Hi Hj Hlt) as H.
      unfold id_lt in H. rewrite Hid in H. destruct (PatientTable.id q); [lia|done].
    + pose proof (sorted_lookup_lt id_lt rows j i q p Hsorted Hj Hi Hlt) as H.
      unfold id_lt in H. rewrite Hid in H. destruct (PatientTable.id q); [lia|done].
Qed.

Lemma persisted_rows_are_valid_and_unique_witness :
  Forall
    (λ p, ∃ i, PatientTable.id p = Some i ∧
               i < patients_id_seq
                     (postgres (post_patients calm test_patient connected_world).2) ∧
               2 ≤ len (PatientTable.name p) ≤ 100 ∧
               1 ≤ PatientTable.age p ≤ 149 ∧
               (PatientTable.gender p = "male" ∨ PatientTable.gender p = "female"
                ∨ PatientTable.gender p = "other") ∧
               5 ≤ len (PatientTable.contact p) ≤ 20)
    (patients (postgres (post_patients calm test_patient connected_world).2)).
Proof.
  apply Forall_forall.
  refine (proj1 (persisted_rows_are_valid_and_unique
                   (serve calm (POST_patients test_patient) connected_world).2 _)).
  apply reachable_serve, reachable_start. reflexivity.
Defined.

Lemma mirror_doc_id row created_at :
  doc_id (<["created_at" := PyStr created_at]> (patient_to_dict row))
  = PatientTable.id row.
Proof.
  unfold doc_id. rewrite lookup_insert_ne by discriminate.
  rewrite patient_to_dict_id. destruct (PatientTable.id row); reflexivity.
Qed.

Lemma doc_lt_irrefl d1 d2 : doc_lt d1 d2 → d1 ≠ d2.
Proof.
  unfold doc_lt. intros Hlt ->. destruct (doc_id d2); [lia | exact Hlt].
Qed.

Lemma mirrors_inserted d patient doc :
  mirrors d doc → mirrors (inserted d patient) doc.
Proof.
  intros (row & ts & Hrow & ->). exists row, ts. split; [|reflexivity].
  cbn. apply elem_of_app. left. exact Hrow.
Qed.

(** A world that differs from a well-formed one in its output only. *)
Lemma Stores_ok_same w w' :
  postgres w' = postgres w → mongo_db w' = mongo_db w →
  Stores_ok w → Stores_ok w'.
Proof.
  intros Hp Hm [Htable Hmirror Hasc Hbelow].
  split; rewrite ?Hp, ?Hm; assumption.
Qed.

(** A world whose sequence has moved on after a rolled-back INSERT. *)
Lemma Stores_ok_rolled_back w w' :
  postgres w' = rolled_back (postgres w) → mongo_db w' = mongo_db w →
  Stores_ok w → Stores_ok w'.
Proof.
  intros Hp Hm [Htable Hmirror Hasc Hbelow].
  split; rewrite ?Hp, ?Hm.
  - apply rolled_back_ok, Htable.
  - exact Hmirror.
  - exact Hasc.
  - intros docs Hdocs. eapply Forall_impl; [apply (Hbelow docs Hdocs)|].
    cbn. intros doc (i & Hi & Hlt). exists i. split; [exact Hi | lia].
Qed.

(** A world whose table has taken the row of a registration, with the
    documents as they were or with the mirror of that row appended. *)
Lemma Stores_ok_inserted w w' body patient :
  PatientCreate.validate body = inr patient →
  Stores_ok w →
  postgres w' = inserted (postgres w) patient →
  (mongo_db w' = mongo_db w ∨
   ∃ docs created_at,
     mongo_db w = Some docs ∧
     mongo_db w' = Some (docs ++ [<["created_at" := PyStr created_at]>
                                    (patient_to_dict (new_row (postgres w) patient))])) →
  Stores_ok w'.
Proof.
  intros Hv [Htable Hmirror Hasc Hbelow] Hp Hm.
  assert (Hold : ∀ docs, mongo_db w = Some docs →
            Forall (mirrors (inserted (postgres w) patient)) docs ∧
            StronglySorted doc_lt docs ∧
            Forall (λ doc, ∃ i, doc_id doc = Some i ∧
                                i < patients_id_seq (postgres w)) docs).
  { intros docs Hdocs. split; [|split; [apply Hasc, Hdocs | apply Hbelow, Hdocs]].
    eapply Forall_impl; [apply Hmirror, Hdocs|]. intros doc. apply mirrors_inserted. }
  assert (Hweaken : ∀ docs,
            Forall (λ doc, ∃ i, doc_id doc = Some i ∧
                                i < patients_id_seq (postgres w)) docs →
            Forall (λ doc, ∃ i, doc_id doc = Some i ∧
                                i < patients_id_seq (inserted (postgres w) patient)) docs).
  { intros docs H. eapply Forall_impl; [exact H|]. intros doc (i & Hi & Hlt). exists i.
    split; [exact Hi|]. cbn. lia. }
  split; rewrite ?Hp.
  - apply (inserted_ok _ _ _ Hv Htable).
  - intros docs' Hdocs'. destruct Hm as [Hm | (docs & ts & Hdocs & Hm)].
    + rewrite Hm in Hdocs'. apply (Hold docs' Hdocs').
    + rewrite Hm in Hdocs'. injection Hdocs' as <-. apply Forall_app. split.
      * apply (Hold docs Hdocs).
      * constructor; [|constructor]. eexists _, ts.
        split; [apply new_row_inserted | reflexivity].
  - intros docs' Hdocs'. destruct Hm as [Hm | (docs & ts & Hdocs & Hm)].
    + rewrite Hm in Hdocs'. apply (Hold docs' Hdocs').
    + rewrite Hm in Hdocs'. injection Hdocs' as <-.
      destruct (Hold docs Hdocs) as (_ & Hsorted & Hlow).
      apply StronglySorted_app_2; [|exact Hsorted|repeat constructor].
      intros d1 d2 Hd1 Hd2. apply list_elem_of_singleton in Hd2 as ->.
      rewrite Forall_forall in Hlow. destruct (Hlow d1 Hd1) as (i & Hi & Hlt).
      unfold doc_lt. rewrite Hi, mirror_doc_id. cbn. exact Hlt.
  - intros docs' Hdocs'. destruct Hm as [Hm | (docs & ts & Hdocs & Hm)].
    + rewrite Hm in Hdocs'. apply Hweaken, (Hold docs' Hdocs').
    + rewrite Hm in Hdocs'. injection Hdocs' as <-. apply Forall_app. split.
      * apply Hweaken, (Hold docs Hdocs).
      * constructor; [|constructor]. exists (patients_id_seq (postgres w)).
        split; [apply mirror_doc_id|]. cbn. lia.
Qed.

Lemma Stores_ok_serve env rq w : Stores_ok w → Stores_ok (serve env rq w).2.
Proof.
  intros Hok. pose proof (table_ok w Hok) as Htable.
  destruct rq as [body | skip limit_ | patient_id]; cbn [serve].
  - destruct (PatientCreate.validate body) as [errors | patient] eqn:Hv.
    + unfold post_patients. rewrite Hv. exact Hok.
    + destruct (session_fault env) as [[c msg]|] eqn:Hs.
      * rewrite (post_patients_aborted _ _ _ _ _ _ Hv Hs). cbn [snd].
        destruct c; cbn [aborted].
        -- apply (Stores_ok_same w); [reflexivity | reflexivity | exact Hok].
        -- apply (Stores_ok_same w); [reflexivity | reflexivity | exact Hok].
        -- apply (Stores_ok_rolled_back w); [reflexivity | reflexivity | exact Hok].
        -- apply (Stores_ok_inserted w _ body patient Hv Hok); [reflexivity|].
           left. reflexivity.
      * rewrite (post_patients_created _ _ _ _ Hv Hs Htable). cbn [snd].
        apply (Stores_ok_inserted w _ body patient Hv Hok);
          [apply mirrored_postgres|].
        unfold mirrored. cbn [mongo_db set_postgres].
        destruct (mongo_db w) as [docs|] eqn:Hm; [|left; cbn; exact Hm].
        destruct (driver_fault env) as [[c msg]|]; [left; cbn; exact Hm|].
        right. exists docs, (now_isoformat env). split; reflexivity.
  - rewrite get_patients_world. exact Hok.
  - rewrite get_patient_world. exact Hok.
Qed.

Lemma served_Stores_ok w : served w → Stores_ok w.
Proof.
  induction 1 as [w Hrows Hdocs | env rq w _ IH]; [|apply Stores_ok_serve, IH].
  split.
  - split; rewrite Hrows; constructor.
  - intros docs Hm. destruct Hdocs as [Hd | Hd]; rewrite Hd in Hm; [discriminate|].
    injection Hm as <-. constructor.
  - intros docs Hm. destruct Hdocs as [Hd | Hd]; rewrite Hd in Hm; [discriminate|].
    injection Hm as <-. constructor.
  - intros docs Hm. destruct Hdocs as [Hd | Hd]; rewrite Hd in Hm; [discriminate|].
    injection Hm as <-. constructor.
Qed.

(** X7. The mirror never holds what the primary store lacks: in every
    state reached from an empty table and an empty or unconnected
    collection, each document of the collection is the record of a row
    of the table (same id, name, age, gender and contact) with
    created_at on top, and no two documents carry the same id, so a row
    is mirrored at most once. *)
Theorem mirror_holds_only_registered_patients w docs :
  served w →
  mongo_db w = Some docs →
  (∀ doc, doc ∈ docs →
     ∃ row created_at,
       row ∈ patients (postgres w) ∧
       doc = <["created_at" := PyStr created_at]> (patient_to_dict row) ∧
       (∀ key, key ≠ "created_at" → doc !! key = patient_to_dict row !! key)) ∧
  (∀ i j d1 d2, docs !! i = Some d1 → docs !! j = Some d2 →
     d1 !! "id" = d2 !! "id" → i = j).
Proof.
  intros Hserved Hm. destruct (served_Stores_ok w Hserved) as [_ Hmirror Hasc _].
  specialize (Hmirror docs Hm). specialize (Hasc docs Hm).
  rewrite Forall_forall in Hmirror. split.
  - intros doc Hdoc. destruct (Hmirror doc Hdoc) as (row & ts & Hrow & ->).
    exists row, ts. split; [exact Hrow|]. split; [reflexivity|].
    intros key Hkey. apply lookup_insert_ne. congruence.
  - intros i j d1 d2 Hi Hj Hid.
    assert (Hlt : ∀ a b, doc_lt a b → a !! "id" ≠ b !! "id").
    { intros a b. unfold doc_lt, doc_id. intros H Heq. rewrite Heq in H.
      destruct (b !! "id") as [[| z |]|]; try exact H. lia. }
    destruct (Nat.lt_trichotomy i j) as [Hij | [-> | Hij]]; [|reflexivity|].
    + destruct (Hlt d1 d2 (sorted_lookup_lt doc_lt docs i j d1 d2 Hasc Hi Hj Hij) Hid).
    + destruct (Hlt d2 d1 (sorted_lookup_lt doc_lt docs j i d2 d1 Hasc Hj Hi Hij)
                  (eq_sym Hid)).
Qed.

Lemma served_after_one_registration :
  served (serve calm (POST_patients test_patient) connected_world).2.
Proof. apply served_next, served_start; [reflexivity | right; reflexivity]. Qed.

Lemma mirror_holds_only_registered_patients_witness :
  Forall
    (λ doc, ∃ row created_at,
       row ∈ patients (postgres (serve calm (POST_patients test_patient)
                                   connected_world).2) ∧
       doc = <["created_at" := PyStr created_at]> (patient_to_dict row) ∧
       (∀ key, key ≠ "created_at" → doc !! key = patient_to_dict row !! key))
    [<["created_at" := PyStr "2024-05-01T10:00:00"]>
       (patient_to_dict
          (PatientTable.Build (Some 1) "Test Patient" 30 "male" "1234567890"))].
Proof.
  apply Forall_forall.
  refine (proj1 (mirror_holds_only_registered_patients _ _
                   served_after_one_registration _)).
  vm_compute. reflexivity.
Defined.

Lemma PatientInDB_validate_mirror row created_at :
  row_valid row →
  ∃ i g,
    PatientTable.id row = Some i ∧
    Gender.value g = PatientTable.gender row ∧
    PatientInDB.validate
      (<["created_at" := PyStr created_at]> (patient_to_dict row))
    = Some (PatientInDB.Build i (PatientTable.name row) (PatientTable.age row) g
              (PatientTable.contact row) (Some created_at) None).
Proof.
  intros [[i Hi] [g Hg]]. exists i, g. split; [exact Hi|].
  pose proof Hg as Hg'.
  apply PatientBase_validate_inr in Hg' as (g' & [= <-] & _ & _ & Hv & _).
  split; [apply (value_of_value _ _ Hv)|].
  unfold PatientInDB.validate.
  rewrite !(lookup_insert_ne (patient_to_dict row) "created_at") by discriminate.
  rewrite lookup_insert_eq.
  rewrite patient_to_dict_id, patient_to_dict_name, patient_to_dict_age,
    patient_to_dict_gender, patient_to_dict_contact, Hi. cbn [from_option].
  rewrite Hg. reflexivity.
Qed.

(** X8. What the mirror holds can be read back as [PatientInDB]: in
    every state reached from an empty table and an empty or unconnected
    collection, each document of the collection passes the model, with
    the id, name, age, gender and contact of a row of the table, a
    [created_at] that is set and an [updated_at] that is not. *)
Theorem mirrored_documents_are_PatientInDB w docs doc :
  served w →
  mongo_db w = Some docs →
  doc ∈ docs →
  ∃ m row,
    PatientInDB.validate doc = Some m ∧
    row ∈ patients (postgres w) ∧
    PatientTable.id row = Some (PatientInDB.id m) ∧
    PatientTable.name row = PatientInDB.name m ∧
    PatientTable.age row = PatientInDB.age m ∧
    PatientTable.gender row = Gender.value (PatientInDB.gender m) ∧
    PatientTable.contact row = PatientInDB.contact m ∧
    is_Some (PatientInDB.created_at m) ∧
    PatientInDB.updated_at m = None.
Proof.
  intros Hserved Hm Hdoc.
  destruct (served_Stores_ok w Hserved) as [[Hvalid _ _] Hmirror _ _].
  specialize (Hmirror docs Hm). rewrite Forall_forall in Hmirror.
  rewrite Forall_forall in Hvalid.
  destruct (Hmirror doc Hdoc) as (row & ts & Hrow & ->).
  destruct (PatientInDB_validate_mirror row ts (Hvalid row Hrow))
    as (i & g & Hi & Hg & Hv).
  eexists _, row. split; [exact Hv|]. cbn.
  repeat split; eauto.
Qed.

Lemma mirrored_documents_are_PatientInDB_witness :
  ∃ m,
    PatientInDB.validate
      (<["created_at" := PyStr "2024-05-01T10:00:00"]>
         (patient_to_dict
            (PatientTable.Build (Some 1) "Test Patient" 30 "male" "1234567890")))
    = Some m ∧
    is_Some (PatientInDB.created_at m) ∧ PatientInDB.updated_at m = None.
Proof.
  destruct (mirrored_documents_are_PatientInDB
              (serve calm (POST_patients test_patient) connected_world).2
              [<["created_at" := PyStr "2024-05-01T10:00:00"]>
                 (patient_to_dict
                    (PatientTable.Build (Some 1) "Test Patient" 30 "male" "1234567890"))]
              (<["created_at" := PyStr "2024-05-01T10:00:00"]>
                 (patient_to_dict
                    (PatientTable.Build (Some 1) "Test Patient" 30 "male" "1234567890")))
              served_after_one_registration)
    as (m & row & Hv & _ & _ & _ & _ & _ & _ & Hc & Hu).
  - vm_compute. reflexivity.
  - apply list_elem_of_singleton. reflexivity.
  - exists m. auto.
Defined.

(** ** The validator *)

Lemma str_field_report lo hi v :
  len v < lo ∧ str_field lo hi v = inl (Field.min_length lo) ∨
  (lo ≤ len v ∧ hi < len v) ∧ str_field lo hi v = inl (Field.max_length hi) ∨
  lo ≤ len v ≤ hi ∧ str_field lo hi v = inr v.
Proof.
  unfold str_field.
  destruct (Z.ltb_spec (len v) lo); [left; auto|].
  destruct (Z.ltb_spec hi (len v)); [right; left; auto|].
  right. right. split; [lia | reflexivity].
Qed.

Lemma int_field_report lo hi v :
  v ≤ lo ∧ int_field lo hi v = inl (Field.gt lo) ∨
  (lo < v ∧ hi ≤ v) ∧ int_field lo hi v = inl (Field.lt hi) ∨
  lo < v < hi ∧ int_field lo hi v = inr v.
Proof.
  unfold int_field.
  destruct (Z.leb_spec v lo); [left; auto|].
  destruct (Z.leb_spec hi v); [right; left; auto|].
  right. right. split; [lia | reflexivity].
Qed.

(** X9. The report of a rejected body says which bound each invalid
    field breaks: a name or contact that is too short is reported with
    its minimum length and one that is too long with its maximum, an age
    of 0 or less with the lower bound and one of 150 or more with the
    upper bound, a gender outside the enumeration as such. The entries
    come in the order name, age, gender, contact, at most one per field,
    and the response to the body is the 422 built from them, the world
    untouched. *)
Theorem report_names_each_broken_bound body report :
  PatientCreate.validate body = inl report →
  (∀ env w, post_patients env body w = (unprocessable report, w)) ∧
  report.*1 `sublist_of` ["name"; "age"; "gender"; "contact"] ∧
  report ≠ [] ∧
  (("name", Field.min_length 2) ∈ report ↔ len (Body.name body) < 2) ∧
  (("name", Field.max_length 100) ∈ report ↔ 100 < len (Body.name body)) ∧
  (("age", Field.gt 0) ∈ report ↔ Body.age body ≤ 0) ∧
  (("age", Field.lt 150) ∈ report ↔ 150 ≤ Body.age body) ∧
  (("gender", Field.enum_member) ∈ report ↔ ¬ gender_ok body) ∧
  (("contact", Field.min_length 5) ∈ report ↔ len (Body.contact body) < 5) ∧
  (("contact", Field.max_length 20) ∈ report ↔ 20 < len (Body.contact body)).
Proof.
  intros Hv. split.
  { intros env w. unfold post_patients. rewrite Hv. reflexivity. }
  revert Hv. unfold PatientCreate.validate, PatientBase.validate.
  destruct (str_field_report 2 100 (Body.name body))
    as [[Hn ->] | [[Hn ->] | [Hn ->]]],
    (int_field_report 0 150 (Body.age body))
    as [[Ha ->] | [[Ha ->] | [Ha ->]]],
    (gender_checked body) as [[Hg [g ->]] | [Hg ->]],
    (str_field_report 5 20 (Body.contact body))
    as [[Hc ->] | [[Hc ->] | [Hc ->]]];
    cbn; intros [= <-]; cbn;
    (split; [repeat first [apply sublist_nil | apply sublist_skip | apply sublist_cons]|]);
    (split; [discriminate|]);
    rewrite ?elem_of_cons, ?elem_of_nil;
    repeat split; intros; try lia; try tauto;
    repeat match goal with
           | H : _ ∨ _ |- _ => destruct H
           | H : (_, _) = (_, _) |- _ => inv H
           | H : False |- _ => destruct H
           end;
    try lia; try tauto; auto 10.
Qed.

Lemma report_names_each_broken_bound_witness :
  post_patients calm invalid_patient connected_world
  = (unprocessable
       [ ("name", Field.min_length 2); ("age", Field.lt 150);
         ("gender", Field.enum_member); ("contact", Field.min_length 5) ],
     connected_world).
Proof.
  exact (proj1 (report_names_each_broken_bound invalid_patient _ eq_refl)
           calm connected_world).
Defined.

(** X10. Validation accepts exactly the bodies in range and changes
    nothing: a body validates to a model precisely when its name, age
    and contact are in range and the model, written back with the value
    of its gender, is the body. *)
Theorem validation_round_trip body patient :
  PatientCreate.validate body = inr patient ↔
  name_ok body ∧ age_ok body ∧ contact_ok body ∧ to_body patient = body.
Proof.
  split.
  - intros Hv.
    apply PatientCreate_validate_inr in Hv as ((Hn & Ha & _ & Hc) & En & Ea & Eg & Ec).
    split; [exact Hn|]. split; [exact Ha|]. split; [exact Hc|].
    unfold to_body. rewrite En, Ea, Eg, Ec. destruct body; reflexivity.
  - intros (Hn & Ha & Hc & <-). unfold PatientCreate.validate.
    unfold name_ok, age_ok, contact_ok, to_body in *. cbn in *.
    rewrite (PatientBase_validate_ok _ _ _ _ (PatientCreate.gender patient) Hn Ha
               (of_value_value _) Hc).
    destruct patient; reflexivity.
Qed.

Lemma validation_round_trip_witness :
  to_body (PatientCreate.Build "Test Patient" 30 MALE "1234567890") = test_patient.
Proof.
  exact (proj2 (proj2 (proj2 (proj1 (validation_round_trip test_patient _)
                                 test_patient_validates)))).
Defined.

(** ** Paging *)

(** X11. A listing that starts at or past the end of the table, or that
    asks for no records, is the empty list with status 200, not an
    error, as long as both counts are below 2^63; a count of 2^63 or
    more is refused by the engine and answered with the server error. *)
Theorem listing_past_the_end_is_empty env w skip limit_ :
  Database_ok (postgres w) →
  0 ≤ skip → 0 ≤ limit_ →
  (skip < 2 ^ 63 → limit_ < 2 ^ 63 →
   Z.of_nat (length (patients (postgres w))) ≤ skip ∨ limit_ = 0 →
   get_patients env (Some skip) (Some limit_) w =
   ({| status_code := 200; content := JsonList [] |}, w)) ∧
  (2 ^ 63 ≤ skip ∨ 2 ^ 63 ≤ limit_ →
   get_patients env (Some skip) (Some limit_) w =
   ({| status_code := 500; content := InternalServerError |}, w)).
Proof.
  intros Hok Hs Hl. split.
  - intros Hsb Hlb Hedge.
    rewrite (get_patients_window _ _ _ _ Hok (conj Hs Hsb) (conj Hl Hlb)).
    destruct Hedge as [Hend | ->].
    + rewrite drop_ge by (rewrite length_scan_rows; lia).
      rewrite take_nil. reflexivity.
    + reflexivity.
  - intros Hbig. unfold get_patients. cbn [default].
    rewrite read_patients_served, (select_too_big _ _ _ Hs Hl Hbig). reflexivity.
Qed.

Lemma listing_past_the_end_is_empty_witness :
  get_patients calm (Some 2) (Some 100) clinic =
    ({| status_code := 200; content := JsonList [] |}, clinic) ∧
  get_patients calm (Some (2 ^ 64)) (Some 100) clinic =
    ({| status_code := 500; content := InternalServerError |}, clinic).
Proof.
  split.
  - refine (proj1 (listing_past_the_end_is_empty calm clinic 2 100
                     two_patients_ok _ _) _ _ _);
      [lia | lia | lia | lia | left; simpl; lia].
  - refine (proj2 (listing_past_the_end_is_empty calm clinic (2 ^ 64) 100
                     two_patients_ok _ _) _);
      [lia | lia | left; lia].
Defined.

Lemma records_window env w skip limit_ :
  Database_ok (postgres w) → 0 ≤ skip < 2 ^ 63 → 0 ≤ limit_ < 2 ^ 63 →
  records (get_patients env (Some skip) (Some limit_) w).1 =
  patient_to_dict <$>
    take (Z.to_nat limit_)
      (drop (Z.to_nat skip) (scan_rows (postgres w) (patients (postgres w)))).
Proof.
  intros Hok Hs Hl. rewrite (get_patients_window _ _ _ _ Hok Hs Hl). reflexivity.
Qed.

(** X12. Paging through the listing loses and repeats nothing while the
    engine scans the table in one order: the pages 0 to n-1 of a
    positive size, each asked for with skip = page number times size
    (all counts below 2^63), put one behind the other are the first n
    times size records of the engine's scan of the table; no record
    comes twice; and once that many pages have been read they hold the
    records of the whole table, each once, in the engine's order. *)
Theorem pages_cover_the_table env w size n :
  Database_ok (postgres w) →
  0 < size →
  Z.of_nat n * size < 2 ^ 63 →
  pages env size n w
    = patient_to_dict <$>
        take (n * Z.to_nat size) (scan_rows (postgres w) (patients (postgres w))) ∧
  NoDup (pages env size n w) ∧
  ((length (patients (postgres w)) ≤ n * Z.to_nat size)%nat →
   pages env size n w
     = patient_to_dict <$> scan_rows (postgres w) (patients (postgres w)) ∧
   pages env size n w ≡ₚ patient_to_dict <$> patients (postgres w)).
Proof.
  intros Hok Hsize Hbound.
  assert (Hpages : pages env size n w
            = patient_to_dict <$>
                take (n * Z.to_nat size)
                  (scan_rows (postgres w) (patients (postgres w)))).
  { unfold pages. induction n as [|n IH]; [reflexivity|].
    rewrite seq_S, flat_map_app, IH by lia. cbn [flat_map Nat.add].
    rewrite app_nil_r, records_window by (assumption || nia).
    rewrite <- fmap_app. f_equal.
    rewrite Z2Nat.inj_mul, Nat2Z.id by lia.
    rewrite take_take_drop. f_equal. lia. }
  assert (Hnodup : NoDup (patient_to_dict <$>
                            scan_rows (postgres w) (patients (postgres w)))).
  { rewrite scan_rows_Permutation.
    apply records_NoDup; [apply (ids_ascending _ Hok) | apply (rows_valid _ Hok)]. }
  split; [exact Hpages|]. split.
  - rewrite Hpages.
    rewrite <- (take_drop (n * Z.to_nat size) (scan_rows _ _)), fmap_app in Hnodup.
    apply NoDup_app in Hnodup as [Hnodup _]. exact Hnodup.
  - intros Hall.
    rewrite Hpages, take_ge by (rewrite length_scan_rows; exact Hall).
    split; [reflexivity|]. rewrite scan_rows_Permutation. reflexivity.
Qed.

Lemma pages_cover_the_table_witness :
  pages calm 1 2 clinic = patient_to_dict <$> patients two_patients.
Proof.
  destruct (pages_cover_the_table calm clinic 1 2 two_patients_ok) as (_ & _ & Hall);
    [lia | simpl; lia |].
  destruct Hall as [Hscan _]; [simpl; lia|].
  exact Hscan.
Defined.



(** ** Start and stop of the document store *)

Lemma mirrored_unbound env row w :
  mongo_db w = None →
  mirrored env row w =
  set_stdout (stdout w ++ ["MongoDB collection is None, skipping MongoDB insert"]) w.
Proof. intros Hm. unfold mirrored. rewrite Hm. reflexivity. Qed.

Lemma mirrored_written env row w docs :
  mongo_db w = Some docs → driver_fault env = None →
  mirrored env row w =
  set_mongo_db
    (Some (docs ++ [<["created_at" := PyStr (now_isoformat env)]>
                      (patient_to_dict row)])) w.
Proof. intros Hm Hf. unfold mirrored. rewrite Hm, Hf. reflexivity. Qed.

(** X14. A connection failure at start does not stop registrations:
    [init_mongodb] returns normally with [db] still unbound and one line
    printed, and a registration served afterwards answers 201 with the
    committed record, skips the mirror write and says so. *)
Theorem registration_survives_failed_connection env p body patient :
  get_mongodb p = None →
  PatientCreate.validate body = inr patient →
  session_fault env = None →
  Database_ok (postgres (running p)) →
  let started := init_mongodb ping_raises_ConnectionFailure p in
  let served := post_patients env body (running started.2) in
  started.1 = inr () ∧
  get_mongodb started.2 = None ∧
  postgres (running started.2) = postgres (running p) ∧
  served.1 =
    {| status_code := 201;
       content := Json (patient_to_dict (new_row (postgres (running p)) patient)) |} ∧
  mongo_db served.2 = None ∧
  stdout served.2 =
    stdout (running p) ++
    ["MongoDB connection failed";
     "MongoDB collection is None, skipping MongoDB insert"].
Proof.
  intros Hdb Hv Hs Hok started served. unfold get_mongodb in Hdb.
  split; [reflexivity|]. split; [exact Hdb|]. split; [reflexivity|].
  unfold served, started. cbn [init_mongodb snd running].
  rewrite (post_patients_created _ _ _ _ Hv Hs) by exact Hok.
  rewrite mirrored_unbound by exact Hdb. cbn.
  split; [reflexivity|]. split; [exact Hdb|].
  rewrite <- app_assoc. reflexivity.
Qed.

Lemma registration_survives_failed_connection_witness :
  stdout (post_patients calm test_patient
            (running (init_mongodb ping_raises_ConnectionFailure
                        (loaded empty_database)).2)).2 =
  ["MongoDB connection failed";
   "MongoDB collection is None, skipping MongoDB insert"].
Proof.
  destruct (registration_survives_failed_connection calm (loaded empty_database)
              test_patient _ eq_refl test_patient_validates eq_refl
              empty_database_ok)
    as (_ & _ & _ & _ & _ & Hout).
  exact Hout.
Defined.

(** X15. Once [init_mongodb] has reached the server, [db] is bound to
    its collection and a registration whose driver calls go through
    appends its document behind the documents the server already held,
    with the clock reading of the request as created_at. *)
Theorem registration_mirrors_after_connection env p body patient documents :
  PatientCreate.validate body = inr patient →
  session_fault env = None →
  driver_fault env = None →
  Database_ok (postgres (running p)) →
  let started := init_mongodb (pong documents) p in
  let served := post_patients env body (running started.2) in
  started.1 = inr () ∧
  get_mongodb started.2 = Some documents ∧
  postgres (running started.2) = postgres (running p) ∧
  mongo_db served.2 =
    Some (documents ++
          [<["created_at" := PyStr (now_isoformat env)]>
             (patient_to_dict (new_row (postgres (running p)) patient))]) ∧
  stdout served.2 = stdout (running p) ++ ["Connected to MongoDB"].
Proof.
  intros Hv Hs Hf Hok started served.
  split; [reflexivity|]. split; [reflexivity|]. split; [reflexivity|].
  unfold served, started. cbn [init_mongodb snd running].
  rewrite (post_patients_created _ _ _ _ Hv Hs) by exact Hok.
  rewrite (mirrored_written _ _ _ documents) by (reflexivity || exact Hf).
  split; reflexivity.
Qed.

Lemma registration_mirrors_after_connection_witness :
  mongo_db (post_patients calm test_patient
              (running (init_mongodb (pong []) (loaded empty_database)).2)).2 =
  Some [<["created_at" := PyStr "2024-05-01T10:00:00"]>
          (patient_to_dict
             (PatientTable.Build (Some 1) "Test Patient" 30 "male" "1234567890"))].
Proof.
  destruct (registration_mirrors_after_connection calm (loaded empty_database)
              test_patient _ [] test_patient_validates eq_refl eq_refl
              empty_database_ok)
    as (_ & _ & _ & Hdocs & _).
  exact Hdocs.
Defined.

(** X16. [close_mongodb_connection] goes by [client], not by [db]: after
    a start from the loaded modules it closes the client and prints its
    line exactly when the client was built, which includes the starts
    whose ping failed, and it leaves [db] as the start left it, bound
    only if the server answered. *)
Theorem close_follows_the_client c d :
  let started := (init_mongodb c (loaded d)).2 in
  let stopped := close_mongodb_connection started in
  get_mongodb stopped = get_mongodb started ∧
  postgres (running stopped) = d ∧
  (is_Some (get_mongodb stopped) ↔ ∃ documents, c = pong documents) ∧
  ((∃ msg, c = client_raises msg) → stopped = loaded d) ∧
  ((∀ msg, c ≠ client_raises msg) →
   client stopped = Some (AsyncIOMotorClient true) ∧
   stdout (running stopped)
     = stdout (running started) ++ ["MongoDB connection closed"]).
Proof.
  intros started stopped. unfold stopped, started.
  destruct c as [msg | | msg | documents]; cbn;
    repeat split; try reflexivity;
    try (intros [? [=]]);
    try (exfalso; match goal with H : ∀ m, _ ≠ _ |- _ => eapply H; reflexivity end);
    eauto.
Qed.

Lemma close_follows_the_client_witness :
  stdout (running (close_mongodb_connection
                     (init_mongodb ping_raises_ConnectionFailure
                        (loaded empty_database)).2)) =
  ["MongoDB connection failed"; "MongoDB connection closed"].
Proof.
  refine (proj2 (proj2 (proj2 (proj2 (proj2
            (close_follows_the_client ping_raises_ConnectionFailure empty_database))))
            _)).
  intros msg. discriminate.
Defined.

(** ** What a registration prints *)

(** X17. A registration whose primary write succeeds prints nothing when
    the mirror write succeeds, the line about the skipped insert when
    [db] is unbound, and otherwise, the driver having raised, the line
    "Error inserting into MongoDB: " followed by the message of the
    exception. *)
Theorem registration_prints_the_mirror_outcome env w body patient :
  PatientCreate.validate body = inr patient →
  session_fault env = None →
  Database_ok (postgres w) →
  stdout (post_patients env body w).2 =
  stdout w ++
  match mongo_db w, driver_fault env with
  | None, _ => ["MongoDB collection is None, skipping MongoDB insert"]
  | Some _, Some (_, msg) => ["Error inserting into MongoDB: " +:+ msg]
  | Some _, None => []
  end.
Proof.
  intros Hv Hs Hok. rewrite (post_patients_created _ _ _ _ Hv Hs Hok).
  cbn [snd]. unfold mirrored. cbn [mongo_db set_postgres].
  destruct (mongo_db w) as [docs|]; [|reflexivity].
  destruct (driver_fault env) as [[c msg]|]; [reflexivity|].
  cbn. rewrite app_nil_r. reflexivity.
Qed.

Lemma registration_prints_the_mirror_outcome_witness :
  stdout (post_patients (insert_fails "No servers found") test_patient
            connected_world).2 =
  ["Error inserting into MongoDB: No servers found"].
Proof.
  exact (registration_prints_the_mirror_outcome (insert_fails "No servers found")
           connected_world test_patient _ test_patient_validates eq_refl
           empty_database_ok).
Defined.

(** ** The answers of the registration route *)

(** X18. On a well-formed table the registration route answers with one
    of three statuses, and which one is decided by the body and the
    session alone: 422 exactly for a body with an invalid field, 201
    exactly for a valid body whose session calls all go through, 500
    exactly for a valid body with a fault on the session. The document
    store and its driver have no say. *)
Theorem registration_status env w body :
  Database_ok (postgres w) →
  let status := status_code (post_patients env body w).1 in
  let valid := name_ok body ∧ age_ok body ∧ gender_ok body ∧ contact_ok body in
  (status = 422 ↔ ¬ valid) ∧
  (status = 201 ↔ valid ∧ session_fault env = None) ∧
  (status = 500 ↔ valid ∧ is_Some (session_fault env)).
Proof.
  intros Hok status valid. unfold status, valid.
  destruct (PatientCreate.validate body) as [errors | patient] eqn:Hv.
  - assert (Hbad : ¬ (name_ok body ∧ age_ok body ∧ gender_ok body ∧ contact_ok body)).
    { intros (Hn & Ha & Hg & Hc).
      destruct (PatientCreate_validate_ok body Hn Ha Hg Hc) as [patient Hp].
      congruence. }
    unfold post_patients. rewrite Hv. cbn.
    rewrite !is_Some_alt. intuition (congruence || lia).
  - pose proof (PatientCreate_validate_inr body patient Hv) as [Hvalid _].
    destruct (session_fault env) as [[c msg]|] eqn:Hs.
    + rewrite (post_patients_aborted _ _ _ _ _ _ Hv Hs). cbn.
      rewrite !is_Some_alt. intuition (congruence || lia).
    + rewrite (post_patients_created _ _ _ _ Hv Hs Hok). cbn.
      rewrite !is_Some_alt. intuition (congruence || lia).
Qed.

Lemma registration_status_witness :
  status_code (post_patients (insert_fails "No servers found") test_patient
                 connected_world).1 = 201.
Proof.
  apply (proj1 (proj2 (registration_status (insert_fails "No servers found")
                         connected_world test_patient empty_database_ok))).
  split; [|reflexivity].
  unfold name_ok, age_ok, gender_ok, contact_ok, len. simpl.
  repeat split; try lia. left. reflexivity.
Defined.

(** ** Records stay *)

Lemma serve_appends env rq w :
  Database_ok (postgres w) →
  ∃ more, patients (postgres (serve env rq w).2) = patients (postgres w) ++ more.
Proof.
  intros Hok. destruct rq as [body | skip limit_ | patient_id]; cbn [serve].
  - destruct (PatientCreate.validate body) as [errors | patient] eqn:Hv.
    + unfold post_patients. rewrite Hv. exists []. rewrite app_nil_r. reflexivity.
    + destruct (session_fault env) as [[c msg]|] eqn:Hs.
      * rewrite (post_patients_aborted _ _ _ _ _ _ Hv Hs). cbn [snd].
        destruct c; cbn; eexists;
          first [reflexivity | rewrite app_nil_r; reflexivity].
      * rewrite (post_patients_created _ _ _ _ Hv Hs Hok). cbn [snd].
        rewrite mirrored_postgres. cbn. eexists. reflexivity.
  - rewrite get_patients_world. exists []. rewrite app_nil_r. reflexivity.
  - rewrite get_patient_world. exists []. rewrite app_nil_r. reflexivity.
Qed.

(** X19. No request updates or deletes a record: whatever request is
    served, the table afterwards is the table before with at most one
    row behind it, and a lookup that answered 200 before answers 200
    with the same record afterwards. *)
Theorem registered_patients_stay env env' rq w :
  Database_ok (postgres w) →
  (∃ more, patients (postgres (serve env rq w).2) = patients (postgres w) ++ more ∧
           (length more ≤ 1)%nat) ∧
  (∀ id data,
     (get_patient env' id w).1 = {| status_code := 200; content := Json data |} →
     (get_patient env' id (serve env rq w).2).1
       = {| status_code := 200; content := Json data |}).
Proof.
  intros Hok. split.
  - destruct rq as [body | skip limit_ | patient_id]; cbn [serve].
    + destruct (PatientCreate.validate body) as [errors | patient] eqn:Hv.
      * unfold post_patients. rewrite Hv. exists []. rewrite app_nil_r. auto.
      * destruct (session_fault env) as [[c msg]|] eqn:Hs.
        -- rewrite (post_patients_aborted _ _ _ _ _ _ Hv Hs). cbn [snd].
           destruct c; cbn; eexists;
             (split; [first [reflexivity | rewrite app_nil_r; reflexivity]|]);
             cbn; lia.
        -- rewrite (post_patients_created _ _ _ _ Hv Hs Hok). cbn [snd].
           rewrite mirrored_postgres. cbn. eexists. split; [reflexivity|]. cbn. lia.
    + rewrite get_patients_world. exists []. rewrite app_nil_r. auto.
    + rewrite get_patient_world. exists []. rewrite app_nil_r. auto.
  - intros id data. unfold get_patient at 1. rewrite read_patient_served. cbn [fst].
    destruct (head _) as [p|] eqn:Hhead; [|discriminate].
    apply head_Some_elem_of, elem_of_scan_rows in Hhead. unfold where_rows in Hhead.
    apply list_elem_of_filter in Hhead as [Hid Hp].
    pose proof (rows_valid _ Hok) as Hvalid. rewrite Forall_forall in Hvalid.
    unfold respond. rewrite (Patient_validate_row p (Hvalid p Hp)).
    intros [= <-].
    destruct (serve_appends env rq w Hok) as [more Hmore].
    rewrite (get_patient_found env' _ p id); [reflexivity| | |exact Hid].
    + apply serve_ok, Hok.
    + rewrite Hmore. apply elem_of_app. left. exact Hp.
Qed.

Lemma registered_patients_stay_witness :
  (get_patient calm 1
     (serve calm (POST_patients the_other_patient) clinic).2).1 =
  {| status_code := 200;
     content := Json (patient_to_dict
       (PatientTable.Build (Some 1) "Test Patient" 30 "male" "1234567890")) |}.
Proof.
  apply (proj2 (registered_patients_stay calm calm
                  (POST_patients the_other_patient) clinic two_patients_ok)).
  vm_compute. reflexivity.
Defined.
